(** * HX711 load-cell amplifier driver (src/HX711.js): model and properties

    The driver bit-bangs a 24-bit ADC over a clock pin and a data pin.  The
    model below follows the class [HX711] method by method.  The driver is
    synchronous and single threaded, so every method is a state transformer
    over the fields of the object and the history of its interaction with the
    two pins, the microsecond clock and the sleep primitive.

    Conventions of the model.
    - Integers that the code handles with the 32-bit operators [<<], [|], [&]
      and [^] are [Z] with the wrap-around of [ToInt32] written out.
    - The other numbers (offset, scale, readings, averages) are exact
      rationals extended with the two infinities and NaN; rounding of
      doubles and the sign of zero are not modelled.  A statement about the
      value of a sum or a quotient is therefore made only where the code's
      binary64 arithmetic is exact too, which [binary64] says; what rounding
      does elsewhere is computed on binary64 numbers in [Binary64].
    - Loops that the code bounds ([for] loops with a counter) recurse on that
      bound; the loops it does not bound take fuel, and [None] means that
      the fuel ran out. *)

From Stdlib Require Import ZArith QArith Qreduction Qabs List Bool Lia.
From Stdlib Require PrimFloat.
Import ListNotations.

Local Open Scope Z_scope.

(** ** Numbers *)

Module Int32.

(** [ToInt32] of ECMAScript on an integral number. *)
Definition wrap (z : Z) : Z := (z + 2 ^ 31) mod 2 ^ 32 - 2 ^ 31.

(** [a << n] *)
Definition shl (a n : Z) : Z := wrap (Z.shiftl (wrap a) (n mod 32)).
(** [a | b] *)
Definition or (a b : Z) : Z := Z.lor (wrap a) (wrap b).
(** [a & b] *)
Definition and (a b : Z) : Z := Z.land (wrap a) (wrap b).
(** [a ^ b] *)
Definition xor (a b : Z) : Z := Z.lxor (wrap a) (wrap b).

End Int32.

(** A JavaScript number, as far as the calibration layer needs it. *)
Inductive Num : Type :=
| Fin (q : Q)
| PInf
| NInf
| NaN.

Module Num.

Definition of_Z (z : Z) : Num := Fin (inject_Z z).

Definition is_zero (q : Q) : bool := Qeq_bool q 0.
Definition is_pos (q : Q) : bool := negb (Qle_bool q 0).

Definition inf (positive : bool) : Num := if positive then PInf else NInf.

(** [a + b], exact: the code's sum where that needs no rounding *)
Definition add (a b : Num) : Num :=
  match a, b with
  | NaN, _ | _, NaN => NaN
  | Fin x, Fin y => Fin (Qred (x + y))
  | PInf, NInf | NInf, PInf => NaN
  | PInf, _ | _, PInf => PInf
  | NInf, _ | _, NInf => NInf
  end.

(** [a * b], exact: the code's product where that needs no rounding *)
Definition mul (a b : Num) : Num :=
  match a, b with
  | NaN, _ | _, NaN => NaN
  | Fin x, Fin y => Fin (Qred (x * y))
  | Fin x, PInf | PInf, Fin x =>
      if is_zero x then NaN else inf (is_pos x)
  | Fin x, NInf | NInf, Fin x =>
      if is_zero x then NaN else inf (negb (is_pos x))
  | PInf, PInf | NInf, NInf => PInf
  | PInf, NInf | NInf, PInf => NInf
  end.

(** [a / b], exact: the code's quotient where that needs no rounding *)
Definition div (a b : Num) : Num :=
  match a, b with
  | NaN, _ | _, NaN => NaN
  | Fin x, Fin y =>
      if is_zero y
      then (if is_zero x then NaN else inf (is_pos x))
      else Fin (Qred (x / y))
  | Fin _, (PInf | NInf) => Fin 0
  | (PInf | NInf), (PInf | NInf) => NaN
  | PInf, Fin y => inf (is_pos y || is_zero y)
  | NInf, Fin y => inf (negb (is_pos y || is_zero y))
  end.

(** [Math.abs(a)] *)
Definition abs (a : Num) : Num :=
  match a with
  | Fin x => Fin (Qabs x)
  | PInf | NInf => PInf
  | NaN => NaN
  end.

(** [a >= b]; every comparison with NaN is false. *)
Definition ge (a b : Num) : bool :=
  match a, b with
  | NaN, _ | _, NaN => false
  | Fin x, Fin y => Qle_bool y x
  | PInf, _ => true
  | _, NInf => true
  | _, PInf => false
  | NInf, _ => false
  end.

(** Truthiness of a number: [0] and [NaN] are falsy. *)
Definition truthy (a : Num) : bool :=
  match a with
  | Fin x => negb (is_zero x)
  | PInf | NInf => true
  | NaN => false
  end.

End Num.

(** The rationals that are IEEE 754 binary64 numbers: a significand of at
    most 53 bits and an exponent between -1074 and 971.  Where the operands
    and the exact result of an operation are of this kind, the operation of
    the code returns that result, without rounding. *)
Definition binary64 (q : Q) : Prop :=
  exists m e : Z,
    Z.abs m < 2 ^ 53 /\ -1074 <= e <= 971 /\ (q == inject_Z m * Qpower 2 e)%Q.

(** The arithmetic of the calibration layer on binary64 numbers as the
    language computes it, rounding included. *)
Module Binary64.

Fixpoint of_positive (p : positive) : PrimFloat.float :=
  match p with
  | xH => PrimFloat.one
  | xO p' => PrimFloat.mul PrimFloat.two (of_positive p')
  | xI p' =>
      PrimFloat.add (PrimFloat.mul PrimFloat.two (of_positive p')) PrimFloat.one
  end.

(** The binary64 number of an integer below 2^53, which is exact. *)
Definition of_Z (z : Z) : PrimFloat.float :=
  match z with
  | Z0 => PrimFloat.zero
  | Zpos p => of_positive p
  | Zneg p => PrimFloat.opp (of_positive p)
  end.

(** [__applyNormalisation], line 123 *)
Definition applyNormalisation (rawValue offset scale : PrimFloat.float)
  : PrimFloat.float :=
  PrimFloat.div (PrimFloat.add rawValue offset) scale.

(** The value that [calibrateScale] stores, line 127 *)
Definition calibrateScale (average offset knownWeight : PrimFloat.float)
  : PrimFloat.float :=
  PrimFloat.div (PrimFloat.add average offset) knownWeight.

End Binary64.

(** ** The driver object and its surroundings *)

(** The static enums [HX711.CHANNEL_A_GAIN_128], [HX711.CHANNEL_B_GAIN_32]
    and [HX711.CHANNEL_A_GAIN_64]. *)
Inductive ChannelGain : Type :=
| CHANNEL_A_GAIN_128
| CHANNEL_B_GAIN_32
| CHANNEL_A_GAIN_64.

Definition ChannelGain_eqb (a b : ChannelGain) : bool :=
  match a, b with
  | CHANNEL_A_GAIN_128, CHANNEL_A_GAIN_128
  | CHANNEL_B_GAIN_32, CHANNEL_B_GAIN_32
  | CHANNEL_A_GAIN_64, CHANNEL_A_GAIN_64 => true
  | _, _ => false
  end.

(** What the driver does to the outside, in program order. *)
Inductive Event : Type :=
| ClockWrite (level : bool)        (* this.__clockPin.digitalWrite(level) *)
| Sleep (ms : Z)                   (* sleep.msleep(ms) *)
| LogSlowPulse (timeElapsed : Z)   (* "Reading data took longer than 60us ..." *)
| LogInvalidData (data_in : Z).    (* "Invalid data detected: ..." *)

(** What the outside answers: the level of the data pin at the n-th
    [digitalRead] and the timestamp of the n-th [microtime.now()]. *)
Record Device : Type := {
  dataLevel : nat -> bool;
  microtime : nat -> Z
}.

(** The fields of the object, and how far the interaction has gone. *)
Record HX711 : Type := {
  offset : Num;
  scale : Num;
  latestReading : Num;
  channelGain : ChannelGain;
  reads : nat;         (* digitalRead calls made so far *)
  ticks : nat;         (* microtime.now calls made so far *)
  trace : list Event
}.

Definition set_offset (v : Num) (s : HX711) : HX711 :=
  {| offset := v; scale := scale s; latestReading := latestReading s;
     channelGain := channelGain s; reads := reads s; ticks := ticks s;
     trace := trace s |}.

Definition set_scale (v : Num) (s : HX711) : HX711 :=
  {| offset := offset s; scale := v; latestReading := latestReading s;
     channelGain := channelGain s; reads := reads s; ticks := ticks s;
     trace := trace s |}.

Definition set_latestReading (v : Num) (s : HX711) : HX711 :=
  {| offset := offset s; scale := scale s; latestReading := v;
     channelGain := channelGain s; reads := reads s; ticks := ticks s;
     trace := trace s |}.

Definition emit (e : Event) (s : HX711) : HX711 :=
  {| offset := offset s; scale := scale s; latestReading := latestReading s;
     channelGain := channelGain s; reads := reads s; ticks := ticks s;
     trace := trace s ++ [e] |}.

Definition next_read (s : HX711) : HX711 :=
  {| offset := offset s; scale := scale s; latestReading := latestReading s;
     channelGain := channelGain s; reads := S (reads s); ticks := ticks s;
     trace := trace s |}.

Definition next_tick (s : HX711) : HX711 :=
  {| offset := offset s; scale := scale s; latestReading := latestReading s;
     channelGain := channelGain s; reads := reads s; ticks := S (ticks s);
     trace := trace s |}.

(** ** Computations *)

Definition M (A : Type) : Type := HX711 -> option (A * HX711).

Definition ret {A} (a : A) : M A := fun s => Some (a, s).

Definition bind {A B} (m : M A) (k : A -> M B) : M B :=
  fun s => match m s with
           | Some (a, s') => k a s'
           | None => None
           end.

Definition out_of_fuel {A} : M A := fun _ => None.

Declare Scope hx_scope.
Delimit Scope hx_scope with hx.
Notation "x <- m ;; k" := (bind m (fun x => k))
  (at level 61, m at next level, right associativity) : hx_scope.
Notation "m ;; k" := (bind m (fun _ => k))
  (at level 61, right associativity) : hx_scope.
Local Open Scope hx_scope.

(** What [__readRaw] returns: [false], or the sample. *)
Inductive RawResult : Type :=
| RawFalse
| RawNumber (signed_data : Z).

Definition maxAttempts : nat := Z.to_nat 9999.

Section Driver.

Variable dev : Device.

(** *** Bus primitives *)

Definition digitalRead : M Z :=
  fun s => Some (Z.b2z (dataLevel dev (reads s)), next_read s).

Definition now : M Z :=
  fun s => Some (microtime dev (ticks s), next_tick s).

Definition clockWrite (level : bool) : M unit :=
  fun s => Some (tt, emit (ClockWrite level) s).

Definition msleep (ms : Z) : M unit :=
  fun s => Some (tt, emit (Sleep ms) s).

Definition log (e : Event) : M unit :=
  fun s => Some (tt, emit e s).

Definition getChannelGain : M ChannelGain :=
  fun s => Some (channelGain s, s).

(** [__isReady] *)
Definition isReady : M bool :=
  level <- digitalRead ;; ret (level =? 0).

(** One clock pulse between two timestamps; the result is [timeElapsed]. *)
Definition timedPulse : M Z :=
  startCounter <- now ;;
  clockWrite true ;;
  clockWrite false ;;
  endCounter <- now ;;
  ret (endCounter - startCounter).

(** *** [__setChannelGain] *)

Definition basePulses (g : ChannelGain) : nat :=
  match g with
  | CHANNEL_A_GAIN_64 => 3
  | CHANNEL_B_GAIN_32 => 2
  | CHANNEL_A_GAIN_128 => 1
  end.

Definition timesToPulse (g : ChannelGain) (isInit : bool) : nat :=
  (basePulses g + (if isInit then 24 else 0))%nat.

(** [while (isInit && !this.__isReady()) sleep.msleep(1)], for [isInit]
    true. *)
Fixpoint waitReady (fuel : nat) : M unit :=
  match fuel with
  | O => out_of_fuel
  | S fuel' =>
      ready <- isReady ;;
      if ready then ret tt else msleep 1 ;; waitReady fuel'
  end.

(** The [for] loop of [__setChannelGain] with [n] pulses left; [false]
    when a pulse took 60 microseconds or more. *)
Fixpoint configPulses (n : nat) : M bool :=
  match n with
  | O => ret true
  | S n' =>
      timeElapsed <- timedPulse ;;
      if timeElapsed >=? 60
      then log (LogSlowPulse timeElapsed) ;; ret false
      else configPulses n'
  end.

Fixpoint setChannelGain (fuel : nat) (g : ChannelGain) (isInit : bool)
  : M bool :=
  match fuel with
  | O => out_of_fuel
  | S fuel' =>
      (if isInit then waitReady fuel' else ret tt) ;;
      done <- configPulses (timesToPulse g isInit) ;;
      if done then ret true else setChannelGain fuel' g true
  end.

(** *** [__readRaw] *)

(** The readiness loop with [left = maxAttempts - attemptsCounter];
    [false] when the attempts are used up. *)
Fixpoint awaitReady (left : nat) : M bool :=
  ready <- isReady ;;
  if ready then ret true
  else
    msleep 1 ;;
    match left with
    | O => ret false
    | S left' => awaitReady left'
    end.

(** The loop over the data bits with [n] bits left; [None] when a pulse
    took 60 microseconds or more. *)
Fixpoint shiftIn (n : nat) (data_in : Z) : M (option Z) :=
  match n with
  | O => ret (Some data_in)
  | S n' =>
      timeElapsed <- timedPulse ;;
      if timeElapsed >=? 60
      then log (LogSlowPulse timeElapsed) ;; ret None
      else
        level <- digitalRead ;;
        shiftIn n' (Int32.or (Int32.shl data_in 1) level)
  end.

Definition isSentinel (data_in : Z) : bool :=
  (data_in =? 0x7fffff) || (data_in =? 0x800000).

(** The conversion from two's complement at the end of [__readRaw]. *)
Definition signedData (data_in : Z) : Z :=
  if Int32.and data_in 0x800000 =? 0
  then data_in
  else -1 * (Int32.xor data_in 0xffffff + 1).

(** Lines 213 to 230: the validity check and the conversion. *)
Definition decode (data_in : Z) : RawResult :=
  if isSentinel data_in then RawFalse else RawNumber (signedData data_in).

Definition readRaw (fuel : nat) : M RawResult :=
  clockWrite false ;;
  ready <- awaitReady maxAttempts ;;
  if negb ready then ret RawFalse
  else
    shifted <- shiftIn 24 0 ;;
    match shifted with
    | None => ret RawFalse
    | Some data_in =>
        g <- getChannelGain ;;
        setChannelGain fuel g false ;;
        msleep 1 ;;
        (if isSentinel data_in then log (LogInvalidData data_in)
         else ret tt) ;;
        ret (decode data_in)
    end.

(** *** Sampling and averaging *)

(** [while (result === false) result = this.__readRaw()] *)
Fixpoint readUntilSample (fuel : nat) : M Z :=
  match fuel with
  | O => out_of_fuel
  | S fuel' =>
      result <- readRaw fuel' ;;
      match result with
      | RawFalse => readUntilSample fuel'
      | RawNumber v => ret v
      end
  end.

(** The [for] loop of [__readRawAverage] with [n] samples left. *)
Fixpoint sumSamples (fuel n : nat) (sum : Z) : M Z :=
  match n with
  | O => ret sum
  | S n' =>
      result <- readUntilSample fuel ;;
      sumSamples fuel n' (sum + result)
  end.

(** [__readRawAverage]; the argument is taken to be an integer. *)
Definition readRawAverage (fuel : nat) (numberOfTimes : Z) : M Num :=
  let numberOfTimes := if numberOfTimes <? 0 then 1 else numberOfTimes in
  sum <- sumSamples fuel (Z.to_nat numberOfTimes) 0 ;;
  ret (Num.div (Num.of_Z sum) (Num.of_Z numberOfTimes)).

(** *** Calibration *)

(** [__applyNormalisation] *)
Definition applyNormalisation (rawValue : Num) (s : HX711) : Num :=
  Num.div (Num.add rawValue (offset s)) (scale s).

Definition tare (fuel : nat) : M bool :=
  average <- readRawAverage fuel 10 ;;
  fun s => Some (true, set_offset (Num.mul (Fin (-1)) average) s).

Definition calibrateScale (fuel : nat) (knownWeight : Num) : M Num :=
  average <- readRawAverage fuel 5 ;;
  fun s =>
    let s' := set_scale (Num.div (Num.add average (offset s)) knownWeight) s
    in Some (scale s', s').

Definition readAverage (fuel : nat) (numberOfTimes : Z) : M Num :=
  average <- readRawAverage fuel numberOfTimes ;;
  fun s =>
    let s' := set_latestReading (applyNormalisation average s) s in
    Some (latestReading s', s').

Definition read (fuel : nat) : M Num := readAverage fuel 1.

(** *** Initialisation *)

(** [while (Math.abs(this.read()) >= 0.5) this.tare()] *)
Fixpoint taring (fuel : nat) : M unit :=
  match fuel with
  | O => out_of_fuel
  | S fuel' =>
      reading <- read fuel' ;;
      if Num.ge (Num.abs reading) (Fin (1 # 2))
      then tare fuel' ;; taring fuel'
      else ret tt
  end.

(** [__begin]; the call of [__setChannelGain] passes no [isInit]. *)
Definition begin (fuel : nat) : M bool :=
  g <- getChannelGain ;;
  (if negb (ChannelGain_eqb g CHANNEL_A_GAIN_128)
   then setChannelGain fuel g false ;; ret tt
   else ret tt) ;;
  taring fuel ;;
  ret true.

(** The fields as the constructor sets them before it calls [__begin];
    an argument left out is [None]. *)
Definition constructed (scale0 : option Num) (channelGain0 : option ChannelGain)
  : HX711 :=
  {| offset := Fin 0;
     scale := match scale0 with
              | Some v => if Num.truthy v then v else Fin 35
              | None => Fin 35
              end;
     latestReading := Fin (-1337);
     channelGain := match channelGain0 with
                    | Some g => g
                    | None => CHANNEL_A_GAIN_128
                    end;
     reads := 0; ticks := 0; trace := [] |}.

Definition constructor (fuel : nat) (scale0 : option Num)
    (channelGain0 : option ChannelGain) : option HX711 :=
  match begin fuel (constructed scale0 channelGain0) with
  | Some (_, s) => Some s
  | None => None
  end.

End Driver.

Arguments maxAttempts : simpl never.

(** ** Reasoning about computations *)

(** [advance r t es s]: the state after [r] more reads of the data pin, [t]
    more timestamps and the events [es]; the fields of the object are those
    of [s]. *)
Definition advance (r t : nat) (es : list Event) (s : HX711) : HX711 :=
  {| offset := offset s; scale := scale s; latestReading := latestReading s;
     channelGain := channelGain s; reads := r + reads s; ticks := t + ticks s;
     trace := trace s ++ es |}.

(** The events of [n] clock pulses. *)
Fixpoint pulseEvents (n : nat) : list Event :=
  match n with
  | O => []
  | S n' => ClockWrite true :: ClockWrite false :: pulseEvents n'
  end.

(** The events of a raw read that goes through: the clock is driven low,
    [k] failed polls are slept on, 24 data pulses and the [n] pulses of the
    gain follow, then the settling sleep and, for a sentinel, the log line. *)
Definition readEvents (k n : nat) (P : Z) : list Event :=
  ClockWrite false :: repeat (Sleep 1) k ++ pulseEvents (24 + n) ++
  Sleep 1 :: (if isSentinel P then [LogInvalidData P] else []).

(** Rising edges of the clock in a trace. *)
Definition pulseCount (es : list Event) : nat :=
  length (filter (fun e => match e with ClockWrite true => true | _ => false end) es).

(** The [n] pulses that start at timestamp number [t] all take less than 60
    microseconds. *)
Definition fastPulses (dev : Device) (t n : nat) : Prop :=
  forall j, (j < n)%nat ->
    microtime dev (S (t + 2 * j)) - microtime dev (t + 2 * j) < 60.

(** The data pin is high (not ready) for [k] reads from read number [r] on,
    and low (ready) at the next one. *)
Definition readyAfter (dev : Device) (r k : nat) : Prop :=
  (forall j, (j < k)%nat -> dataLevel dev (r + j) = true) /\
  dataLevel dev (r + k) = false.

(** From read number [r] on the data pin presents the 24 bits of [P], most
    significant first. *)
Definition presents (dev : Device) (r : nat) (P : Z) : Prop :=
  forall i, (i < 24)%nat ->
    dataLevel dev (r + i) = Z.testbit P (23 - Z.of_nat i).

(** The object's own fields are the same in both states. *)
Definition sameFields (s s' : HX711) : Prop :=
  offset s' = offset s /\ scale s' = scale s /\
  latestReading s' = latestReading s /\ channelGain s' = channelGain s.

Definition sumZ (l : list Z) : Z := fold_right Z.add 0 l.

(** [Preserves R m]: every run of [m] that returns relates the state before
    to the state after. *)
Definition Preserves {A} (R : HX711 -> HX711 -> Prop) (m : M A) : Prop :=
  forall s a s', m s = Some (a, s') -> R s s'.

(** The relations that the frame statements use. *)
Definition keepsOffset (s s' : HX711) : Prop := offset s' = offset s.
Definition keepsScale (s s' : HX711) : Prop := scale s' = scale s.
Definition keepsCalibration (s s' : HX711) : Prop :=
  offset s' = offset s /\ scale s' = scale s.

(** The trace of [s'] is that of [s] with more events after it. *)
Definition extends (s s' : HX711) : Prop :=
  exists es, trace s' = trace s ++ es.

Definition keepsGain (s s' : HX711) : Prop := channelGain s' = channelGain s.
Definition keepsLatestReading (s s' : HX711) : Prop :=
  latestReading s' = latestReading s.

(** Every rising edge of the clock in [es] is followed at once by the falling
    edge. *)
Fixpoint pulsesClosed (es : list Event) : bool :=
  match es with
  | [] => true
  | ClockWrite true :: rest =>
      match rest with
      | ClockWrite false :: rest' => pulsesClosed rest'
      | _ => false
      end
  | _ :: rest => pulsesClosed rest
  end.

(** [s'] comes after [s] through events in which every pulse is closed. *)
Definition pulsed (s s' : HX711) : Prop :=
  exists es, trace s' = trace s ++ es /\ pulsesClosed es = true.

Create HintDb frame.
Create HintDb pulse.

Section Acquisition.

Variable dev : Device.
Variable fuel : nat.

(** [acquires s l s']: from [s], successive runs of the retry loop of
    [__readRawAverage] obtain the samples [l] and end in [s']. *)
Inductive acquires : HX711 -> list Z -> HX711 -> Prop :=
| acquires_nil s : acquires s [] s
| acquires_cons s v s1 l s2 :
    readUntilSample dev fuel s = Some (v, s1) ->
    acquires s1 l s2 ->
    acquires s (v :: l) s2.

End Acquisition.

(** ** The behaviour the specification words for the Taring state *)

(** Taring as the specification words it: [tare()], then [read()], until the
    absolute reading is below 0.5. *)
Fixpoint taring_tare_first (dev : Device) (fuel : nat) : M unit :=
  match fuel with
  | O => out_of_fuel
  | S fuel' =>
      tare dev fuel' ;;
      reading <- read dev fuel' ;;
      if Num.ge (Num.abs reading) (Fin (1 # 2))
      then taring_tare_first dev fuel'
      else ret tt
  end.

(** [__begin] with that loop in place of the one in the code. *)
Definition begin_tare_first (dev : Device) (fuel : nat) : M bool :=
  g <- getChannelGain ;;
  (if negb (ChannelGain_eqb g CHANNEL_A_GAIN_128)
   then setChannelGain dev fuel g false ;; ret tt
   else ret tt) ;;
  taring_tare_first dev fuel ;;
  ret true.

(** ** Devices used as concrete inputs *)

(** A device that is ready at every 25th read and then presents the 24 bits
    of [sample q] for its [q]-th conversion; every clock call is one
    microsecond after the previous one. *)
Definition sampleDevice (sample : nat -> Z) : Device :=
  {| dataLevel := fun r =>
       match (r mod 25)%nat with
       | O => false
       | m => Z.testbit (sample (r / 25)%nat) (24 - Z.of_nat m)
       end;
     microtime := fun n => Z.of_nat n |}.

(** A device whose data pin never goes low. *)
Definition deadDevice : Device :=
  {| dataLevel := fun _ => true; microtime := fun n => Z.of_nat n |}.

(** A device that is ready after three polls and fast on every pulse. *)
Definition lateDevice : Device :=
  {| dataLevel := fun r => (r <? 3)%nat; microtime := fun n => Z.of_nat n |}.

(** A device that is always ready and whose first clock pulse takes 60
    microseconds; the later ones take one. *)
Definition slowFirstPulse : Device :=
  {| dataLevel := fun _ => false;
     microtime := fun n => match n with O => 0 | _ => 59 + Z.of_nat n end |}.

(** A device whose conversions all read 0. *)
Definition zeroDevice : Device := sampleDevice (fun _ => 0).

(** The driver on [zeroDevice] after [new HX711(...)] with the default scale
    and gain and then [calibrateScale(1)]. *)
Definition afterZeroCalibration : HX711 :=
  match constructor zeroDevice 3 None None with
  | Some s =>
      match calibrateScale zeroDevice 2 (Fin 1) s with
      | Some (_, s') => s'
      | None => s
      end
  | None => constructed None None
  end.

(** A device that converts 1000 on demand and whose 25th clock pulse, the
    first gain pulse of the first read, takes 101 microseconds. *)
Definition slowGainPulse : Device :=
  {| dataLevel := dataLevel (sampleDevice (fun _ => 1000));
     microtime := fun n =>
       if (n <? 49)%nat then Z.of_nat n else Z.of_nat n + 100 |}.

(** Conversions that read 1000 once in eleven and 0 otherwise. *)
Definition driftSample (q : nat) : Z :=
  if (q mod 11 =? 0)%nat then 1000 else 0.

Definition driftingDevice : Device := sampleDevice driftSample.

(** * Properties *)

(** ** Integer operations *)

Lemma wrap_small z : - 2 ^ 31 <= z < 2 ^ 31 -> Int32.wrap z = z.
Proof.
  intros Hz. unfold Int32.wrap.
  rewrite Z.mod_small; lia.
Qed.

Lemma lor_double_bit d b : 0 <= b <= 1 -> Z.lor (2 * d) b = 2 * d + b.
Proof.
  intros Hb.
  assert (Hland : Z.land (2 * d) b = 0).
  { assert (b = 0 \/ b = 1) as [-> | ->] by lia.
    - apply Z.land_0_r.
    - change 1 with (Z.ones 1). rewrite Z.land_ones by lia.
      change (2 ^ 1) with 2. rewrite Z.mul_comm. apply Z.mod_mul. lia. }
  rewrite <- Z.lxor_lor by exact Hland.
  symmetry. apply Z.add_nocarry_lxor. exact Hland.
Qed.

Lemma shl_or_bit d b :
  0 <= d < 2 ^ 23 -> 0 <= b <= 1 ->
  Int32.or (Int32.shl d 1) b = 2 * d + b.
Proof.
  intros Hd Hb. unfold Int32.or, Int32.shl.
  change (1 mod 32) with 1.
  rewrite (wrap_small d) by lia.
  rewrite Z.shiftl_mul_pow2 by lia. change (2 ^ 1) with 2.
  rewrite !(wrap_small (d * 2)) by lia.
  rewrite (wrap_small b) by lia.
  rewrite (Z.mul_comm d 2). apply lor_double_bit. exact Hb.
Qed.

(** Bit 23 of a 24-bit pattern is set exactly from [2 ^ 23] on. *)
Lemma testbit_23 P : 0 <= P < 2 ^ 24 -> Z.testbit P 23 = (2 ^ 23 <=? P).
Proof.
  intros HP. destruct (Z.leb_spec (2 ^ 23) P) as [Hge | Hlt].
  - apply Z.testbit_true; [lia |].
    assert (P / 2 ^ 23 = 1) as ->; [| reflexivity].
    symmetry. apply (Z.div_unique P (2 ^ 23) 1 (P - 2 ^ 23)); lia.
  - apply Z.testbit_false; [lia |].
    rewrite Z.div_small by lia. reflexivity.
Qed.

Lemma testbit_high P n : 0 <= P < 2 ^ 24 -> 24 <= n -> Z.testbit P n = false.
Proof.
  intros HP Hn. rewrite <- (Z.mod_small P (2 ^ 24)) by lia.
  apply Z.mod_pow2_bits_high. lia.
Qed.

Lemma and_sign_bit P :
  0 <= P < 2 ^ 24 ->
  Int32.and P 0x800000 = if Z.testbit P 23 then 2 ^ 23 else 0.
Proof.
  intros HP. unfold Int32.and.
  rewrite (wrap_small P), (wrap_small 0x800000) by lia.
  change 0x800000 with (2 ^ 23).
  apply Z.bits_inj'. intros n Hn.
  rewrite Z.land_spec, Z.pow2_bits_eqb by lia.
  destruct (Z.eqb_spec 23 n) as [<- | Hne].
  - rewrite andb_true_r. destruct (Z.testbit P 23) eqn:E.
    + rewrite Z.pow2_bits_true; [reflexivity | lia].
    + symmetry. apply Z.bits_0.
  - rewrite andb_false_r. destruct (Z.testbit P 23).
    + rewrite Z.pow2_bits_false; [reflexivity | lia].
    + rewrite Z.bits_0. reflexivity.
Qed.

Lemma xor_ones P :
  0 <= P < 2 ^ 24 -> Int32.xor P 0xffffff = Z.lxor P 0xffffff /\
                     Z.lxor P 0xffffff = 0xffffff - P.
Proof.
  intros HP. unfold Int32.xor.
  rewrite (wrap_small P), (wrap_small 0xffffff) by lia.
  split; [reflexivity |].
  change 0xffffff with (Z.ones 24).
  assert (Hsub : Z.ldiff P (Z.ones 24) = 0).
  { rewrite Z.ldiff_ones_r by lia.
    rewrite Z.shiftr_div_pow2, Z.div_small by lia. apply Z.shiftl_0_l. }
  rewrite (Z.sub_nocarry_ldiff (Z.ones 24) P Hsub).
  apply Z.bits_inj'. intros n Hn.
  rewrite Z.lxor_spec, Z.ldiff_spec.
  destruct (Z.ltb_spec n 24) as [Hlt | Hge].
  - rewrite Z.ones_spec_low by lia. destruct (Z.testbit P n); reflexivity.
  - rewrite Z.ones_spec_high, testbit_high by lia. reflexivity.
Qed.

(** The conversion of [__readRaw] is the two's complement reading of the 24
    bits. *)
Lemma signedData_spec P :
  0 <= P < 2 ^ 24 ->
  signedData P = (if Z.testbit P 23 then - (Z.lxor P 0xffffff + 1) else P) /\
  signedData P = (if 2 ^ 23 <=? P then P - 2 ^ 24 else P).
Proof.
  intros HP. unfold signedData.
  rewrite and_sign_bit by exact HP.
  destruct (xor_ones P HP) as [-> Hx].
  rewrite <- testbit_23 by exact HP.
  destruct (Z.testbit P 23); simpl (_ =? _).
  - split; [lia | rewrite Hx; lia].
  - split; reflexivity.
Qed.

Lemma isSentinel_spec P :
  isSentinel P = true <-> P = 0x7fffff \/ P = 0x800000.
Proof.
  unfold isSentinel. rewrite orb_true_iff, !Z.eqb_eq. reflexivity.
Qed.

(** What [decode] answers on a 24-bit pattern. *)
Lemma decode_spec P :
  0 <= P < 2 ^ 24 ->
  (P = 0x7fffff \/ P = 0x800000 -> decode P = RawFalse) /\
  (P <> 0x7fffff -> P <> 0x800000 ->
   exists v, decode P = RawNumber v /\
     v = (if Z.testbit P 23 then - (Z.lxor P 0xffffff + 1) else P) /\
     - (2 ^ 23 - 1) <= v <= 2 ^ 23 - 2).
Proof.
  intros HP. unfold decode. split.
  - intros H. apply isSentinel_spec in H. rewrite H. reflexivity.
  - intros H1 H2.
    destruct (isSentinel P) eqn:E.
    + apply isSentinel_spec in E. tauto.
    + exists (signedData P). destruct (signedData_spec P HP) as [Ha Hb].
      split; [reflexivity | split; [exact Ha |]].
      rewrite Hb. destruct (Z.leb_spec (2 ^ 23) P); lia.
Qed.

(** ** States and sequencing *)

Lemma advance_0 s : advance 0 0 [] s = s.
Proof.
  destruct s. unfold advance. simpl.
  rewrite app_nil_r. reflexivity.
Qed.

Lemma advance_advance r1 t1 es1 r2 t2 es2 s :
  advance r2 t2 es2 (advance r1 t1 es1 s) =
  advance (r1 + r2) (t1 + t2) (es1 ++ es2) s.
Proof.
  unfold advance. simpl.
  rewrite !Nat.add_assoc, app_assoc.
  rewrite (Nat.add_comm r2 r1), (Nat.add_comm t2 t1). reflexivity.
Qed.

Lemma advance_ext r t es r' t' es' s :
  r = r' -> t = t' -> es = es' -> advance r t es s = advance r' t' es' s.
Proof. intros -> -> ->. reflexivity. Qed.

Lemma emit_advance e s : emit e s = advance 0 0 [e] s.
Proof. reflexivity. Qed.

Lemma next_read_advance s : next_read s = advance 1 0 [] s.
Proof.
  unfold next_read, advance. rewrite app_nil_r. reflexivity.
Qed.

Lemma next_tick_advance s : next_tick s = advance 0 1 [] s.
Proof.
  unfold next_tick, advance. rewrite app_nil_r. reflexivity.
Qed.

Lemma sameFields_refl s : sameFields s s.
Proof. unfold sameFields. auto. Qed.

Lemma sameFields_trans s1 s2 s3 :
  sameFields s1 s2 -> sameFields s2 s3 -> sameFields s1 s3.
Proof. unfold sameFields. intuition congruence. Qed.

Lemma sameFields_advance r t es s : sameFields s (advance r t es s).
Proof. unfold sameFields. simpl. auto. Qed.

Lemma bind_Some {A B} (m : M A) (k : A -> M B) s a s' :
  m s = Some (a, s') -> bind m k s = k a s'.
Proof. unfold bind. intros ->. reflexivity. Qed.

Lemma bind_None {A B} (m : M A) (k : A -> M B) s :
  m s = None -> bind m k s = None.
Proof. unfold bind. intros ->. reflexivity. Qed.

Lemma bind_bind {A B C} (m : M A) (k : A -> M B) (k' : B -> M C) s :
  bind (bind m k) k' s = bind m (fun a => bind (k a) k') s.
Proof. unfold bind. destruct (m s) as [[a s1] |]; reflexivity. Qed.

(** A run of [bind m k] that returns went through a run of [m]. *)
Lemma bind_inv {A B} (m : M A) (k : A -> M B) s b s2 :
  bind m k s = Some (b, s2) ->
  exists a s1, m s = Some (a, s1) /\ k a s1 = Some (b, s2).
Proof.
  unfold bind. destruct (m s) as [[a s1] |]; [| discriminate].
  intros H. exists a, s1. auto.
Qed.

Lemma pulseEvents_app a b :
  pulseEvents (a + b) = pulseEvents a ++ pulseEvents b.
Proof.
  induction a as [| a IH]; simpl; [reflexivity |].
  rewrite IH. reflexivity.
Qed.

Lemma pulseCount_app es1 es2 :
  pulseCount (es1 ++ es2) = (pulseCount es1 + pulseCount es2)%nat.
Proof. unfold pulseCount. rewrite filter_app, length_app. reflexivity. Qed.

Lemma pulseCount_pulseEvents n : pulseCount (pulseEvents n) = n.
Proof.
  induction n as [| n IH]; [reflexivity |].
  change (pulseCount (pulseEvents (S n))) with (S (pulseCount (pulseEvents n))).
  rewrite IH. reflexivity.
Qed.

Lemma pulseCount_sleeps k : pulseCount (repeat (Sleep 1) k) = 0%nat.
Proof. induction k as [| k IH]; [reflexivity | exact IH]. Qed.

Lemma fastPulses_tail dev t n :
  fastPulses dev t (S n) -> fastPulses dev (t + 2) n.
Proof.
  intros H j Hj. specialize (H (S j) ltac:(lia)).
  replace (t + 2 + 2 * j)%nat with (t + 2 * S j)%nat by lia. exact H.
Qed.

Lemma fastPulses_head dev t n :
  fastPulses dev t (S n) -> microtime dev (S t) - microtime dev t < 60.
Proof.
  intros H. specialize (H 0%nat ltac:(lia)).
  rewrite Nat.mul_0_r, Nat.add_0_r in H. exact H.
Qed.

Lemma fastPulses_split dev t a b :
  fastPulses dev t (a + b) ->
  fastPulses dev t a /\ fastPulses dev (t + 2 * a) b.
Proof.
  intros H. split; intros j Hj.
  - apply H. lia.
  - specialize (H (a + j)%nat ltac:(lia)).
    replace (t + 2 * a + 2 * j)%nat with (t + 2 * (a + j))%nat by lia.
    exact H.
Qed.

(** ** Bus primitives *)

Section Primitives.

Variable dev : Device.

Lemma digitalRead_run s :
  digitalRead dev s =
  Some (Z.b2z (dataLevel dev (reads s)), advance 1 0 [] s).
Proof. unfold digitalRead. rewrite next_read_advance. reflexivity. Qed.

Lemma isReady_run s :
  isReady dev s = Some (negb (dataLevel dev (reads s)), advance 1 0 [] s).
Proof.
  unfold isReady. rewrite (bind_Some _ _ _ _ _ (digitalRead_run s)).
  unfold ret. destruct (dataLevel dev (reads s)); reflexivity.
Qed.

Lemma clockWrite_run level s :
  clockWrite level s = Some (tt, advance 0 0 [ClockWrite level] s).
Proof. unfold clockWrite. rewrite emit_advance. reflexivity. Qed.

Lemma msleep_run ms s : msleep ms s = Some (tt, advance 0 0 [Sleep ms] s).
Proof. unfold msleep. rewrite emit_advance. reflexivity. Qed.

Lemma log_run e s : log e s = Some (tt, advance 0 0 [e] s).
Proof. unfold log. rewrite emit_advance. reflexivity. Qed.

Lemma timedPulse_run s :
  timedPulse dev s =
  Some (microtime dev (S (ticks s)) - microtime dev (ticks s),
        advance 0 2 (pulseEvents 1) s).
Proof.
  unfold timedPulse, bind, now, clockWrite, ret. simpl.
  do 2 f_equal. rewrite !emit_advance, !next_tick_advance.
  rewrite !advance_advance. reflexivity.
Qed.

End Primitives.

(** Runs one known step of a sequence. *)
Ltac step H := rewrite (bind_Some _ _ _ _ _ H).

(** States the goal about the read number [n] of the data pin. *)
Ltac at_read n :=
  match goal with
  | |- context [dataLevel _ ?x] => replace x with n by (simpl; lia)
  end.

(** Brings a state reached through several steps to a single [advance]. *)
Ltac merge_advance :=
  rewrite ?advance_advance; apply advance_ext; simpl; try lia;
  rewrite <- ?app_assoc; try reflexivity.

(** ** The configuration pulses *)

Section ChannelGainPulses.

Variable dev : Device.

Lemma configPulses_fast n : forall s,
  fastPulses dev (ticks s) n ->
  configPulses dev n s = Some (true, advance 0 (2 * n) (pulseEvents n) s).
Proof.
  induction n as [| n IH]; intros s Hfast.
  - simpl. unfold ret. rewrite advance_0. reflexivity.
  - cbn [configPulses]. step (timedPulse_run dev s).
    pose proof (fastPulses_head _ _ _ Hfast) as Hhead.
    destruct (Z.geb_spec (microtime dev (S (ticks s)) - microtime dev (ticks s)) 60)
      as [Hslow | _]; [lia |].
    rewrite IH
      by (cbn [ticks advance]; rewrite (Nat.add_comm 2);
          apply fastPulses_tail; exact Hfast).
    f_equal. f_equal. merge_advance.
Qed.

(** A pulse of 60 microseconds or more, after [i] fast ones, ends the
    loop. *)
Lemma configPulses_slow n : forall i s,
  (i < n)%nat ->
  fastPulses dev (ticks s) i ->
  60 <= microtime dev (S (ticks s + 2 * i)) - microtime dev (ticks s + 2 * i) ->
  configPulses dev n s =
  Some (false,
        advance 0 (2 * S i)
          (pulseEvents (S i) ++
           [LogSlowPulse (microtime dev (S (ticks s + 2 * i))
                          - microtime dev (ticks s + 2 * i))]) s).
Proof.
  induction n as [| n IH]; intros i s Hi Hfast Hslow; [lia |].
  cbn [configPulses]. step (timedPulse_run dev s).
  destruct i as [| i].
  - rewrite Nat.mul_0_r, Nat.add_0_r in *.
    destruct (Z.geb_spec (microtime dev (S (ticks s)) - microtime dev (ticks s)) 60)
      as [_ | Hlt]; [| lia].
    step (log_run (LogSlowPulse (microtime dev (S (ticks s)) - microtime dev (ticks s)))
            (advance 0 2 (pulseEvents 1) s)).
    unfold ret. f_equal. f_equal. merge_advance.
  - pose proof (fastPulses_head _ _ _ Hfast) as Hhead.
    destruct (Z.geb_spec (microtime dev (S (ticks s)) - microtime dev (ticks s)) 60)
      as [Hge | _]; [lia |].
    rewrite (IH i); cbn [ticks advance].
    + replace (2 + ticks s + 2 * i)%nat with (ticks s + 2 * S i)%nat by lia.
      f_equal. f_equal. merge_advance.
    + lia.
    + rewrite (Nat.add_comm 2). apply fastPulses_tail. exact Hfast.
    + replace (2 + ticks s + 2 * i)%nat with (ticks s + 2 * S i)%nat by lia.
      exact Hslow.
Qed.

Lemma waitReady_run k : forall fuel s,
  readyAfter dev (reads s) k ->
  (k < fuel)%nat ->
  waitReady dev fuel s =
  Some (tt, advance (S k) 0 (repeat (Sleep 1) k) s).
Proof.
  induction k as [| k IH]; intros fuel s [Hhigh Hlow] Hfuel;
    (destruct fuel as [| fuel]; [lia |]); cbn [waitReady];
    step (isReady_run dev s).
  - rewrite Nat.add_0_r in Hlow. rewrite Hlow. reflexivity.
  - rewrite <- (Nat.add_0_r (reads s)), (Hhigh 0%nat) by lia. cbn [negb].
    step (msleep_run 1 (advance 1 0 [] s)).
    rewrite IH.
    + f_equal. f_equal. merge_advance.
    + split.
      * intros j Hj. at_read (reads s + S j)%nat. apply Hhigh. lia.
      * at_read (reads s + S k)%nat. exact Hlow.
    + lia.
Qed.

(** Without [isInit], and with fast pulses, the per-gain pulses are all
    that happens. *)
Lemma setChannelGain_plain fuel g s :
  (0 < fuel)%nat ->
  fastPulses dev (ticks s) (basePulses g) ->
  setChannelGain dev fuel g false s =
  Some (true, advance 0 (2 * basePulses g) (pulseEvents (basePulses g)) s).
Proof.
  intros Hfuel Hfast. destruct fuel as [| fuel]; [lia |].
  cbn [setChannelGain]. unfold ret at 1, bind at 1.
  unfold timesToPulse. rewrite Nat.add_0_r.
  step (configPulses_fast _ _ Hfast). reflexivity.
Qed.

(** With [isInit], the wait for readiness comes first and 24 pulses are
    added. *)
Lemma setChannelGain_init fuel g k s :
  (S k < fuel)%nat ->
  readyAfter dev (reads s) k ->
  fastPulses dev (ticks s) (basePulses g + 24) ->
  setChannelGain dev fuel g true s =
  Some (true,
        advance (S k) (2 * (basePulses g + 24))
          (repeat (Sleep 1) k ++ pulseEvents (basePulses g + 24)) s).
Proof.
  intros Hfuel Hready Hfast. destruct fuel as [| fuel]; [lia |].
  cbn [setChannelGain].
  step (waitReady_run k fuel s Hready ltac:(lia)).
  unfold timesToPulse.
  rewrite (bind_Some _ _ _ _ _
             (configPulses_fast (basePulses g + 24)
                (advance (S k) 0 (repeat (Sleep 1) k) s) Hfast)).
  unfold ret. f_equal. f_equal. merge_advance.
Qed.

(** A configuration pulse of 60 microseconds or more makes
    [__setChannelGain] start over with [isInit] set: the wait for readiness
    and the 24 extra pulses. *)
Lemma setChannelGain_resyncs fuel g i s :
  (i < basePulses g)%nat ->
  fastPulses dev (ticks s) i ->
  60 <= microtime dev (S (ticks s + 2 * i)) - microtime dev (ticks s + 2 * i) ->
  setChannelGain dev (S fuel) g false s =
  setChannelGain dev fuel g true
    (advance 0 (2 * S i)
       (pulseEvents (S i) ++
        [LogSlowPulse (microtime dev (S (ticks s + 2 * i))
                       - microtime dev (ticks s + 2 * i))]) s).
Proof.
  intros Hi Hfast Hslow. cbn [setChannelGain].
  step (eq_refl : ret tt s = Some (tt, s)).
  unfold timesToPulse. rewrite Nat.add_0_r.
  step (configPulses_slow (basePulses g) i s Hi Hfast Hslow).
  reflexivity.
Qed.

End ChannelGainPulses.

(** ** One raw read *)

Section RawRead.

Variable dev : Device.

(** The readiness loop of [__readRaw] always ends: it polls at most
    [left + 1] times and sleeps one millisecond after each failed poll. *)
Lemma awaitReady_total left : forall s,
  exists (ready : bool) (polls : nat),
    awaitReady dev left s =
    Some (ready,
          advance polls 0
            (repeat (Sleep 1) (if ready then pred polls else polls)) s) /\
    (1 <= polls <= S left)%nat /\
    (ready = false -> polls = S left).
Proof.
  induction left as [| left IH]; intros s.
  - destruct (dataLevel dev (reads s)) eqn:E.
    + exists false, 1%nat. cbn [awaitReady]. step (isReady_run dev s). rewrite E.
      cbn [negb]. step (msleep_run 1 (advance 1 0 [] s)).
      unfold ret. rewrite advance_advance.
      split; [reflexivity | split; [lia | reflexivity]].
    + exists true, 1%nat. cbn [awaitReady]. step (isReady_run dev s). rewrite E.
      split; [reflexivity | split; [lia | discriminate]].
  - destruct (dataLevel dev (reads s)) eqn:E.
    + destruct (IH (advance 1 0 [Sleep 1] s)) as (ready & polls & Hrun & Hb & Hf).
      exists ready, (S polls). cbn [awaitReady]. step (isReady_run dev s).
      rewrite E. cbn [negb]. step (msleep_run 1 (advance 1 0 [] s)).
      rewrite advance_advance. cbn [Nat.add app]. rewrite Hrun.
      split; [| split; [lia | intros ->; rewrite Hf; reflexivity]].
      f_equal. f_equal. rewrite advance_advance. apply advance_ext; [lia | lia |].
      destruct ready; [| reflexivity].
      destruct polls as [| polls]; [lia |]. reflexivity.
    + exists true, 1%nat. cbn [awaitReady]. step (isReady_run dev s). rewrite E.
      split; [reflexivity | split; [lia | discriminate]].
Qed.

Lemma awaitReady_ready k : forall left s,
  (k <= left)%nat ->
  readyAfter dev (reads s) k ->
  awaitReady dev left s =
  Some (true, advance (S k) 0 (repeat (Sleep 1) k) s).
Proof.
  induction k as [| k IH]; intros left s Hk [Hhigh Hlow].
  - rewrite Nat.add_0_r in Hlow.
    destruct left; cbn [awaitReady]; step (isReady_run dev s);
      rewrite Hlow; reflexivity.
  - destruct left as [| left]; [lia |].
    cbn [awaitReady]. step (isReady_run dev s).
    rewrite <- (Nat.add_0_r (reads s)), (Hhigh 0%nat) by lia. cbn [negb].
    step (msleep_run 1 (advance 1 0 [] s)).
    rewrite IH.
    + f_equal. f_equal. merge_advance.
    + lia.
    + split.
      * intros j Hj. at_read (reads s + S j)%nat. apply Hhigh. lia.
      * at_read (reads s + S k)%nat. exact Hlow.
Qed.

Lemma awaitReady_gives_up left : forall s,
  (forall j, (j <= left)%nat -> dataLevel dev (reads s + j) = true) ->
  awaitReady dev left s =
  Some (false, advance (S left) 0 (repeat (Sleep 1) (S left)) s).
Proof.
  induction left as [| left IH]; intros s Hhigh;
    cbn [awaitReady]; step (isReady_run dev s);
    rewrite <- (Nat.add_0_r (reads s)), (Hhigh 0%nat) by lia; cbn [negb];
    step (msleep_run 1 (advance 1 0 [] s)).
  - unfold ret. f_equal. f_equal. merge_advance.
  - rewrite IH.
    + f_equal. f_equal. merge_advance.
    + intros j Hj. at_read (reads s + S j)%nat. apply Hhigh. lia.
Qed.

(** The accumulator stays a pattern of as many bits as were shifted in. *)
Lemma shiftIn_range n : forall d s d' s',
  (n <= 24)%nat ->
  0 <= d < 2 ^ (24 - Z.of_nat n) ->
  shiftIn dev n d s = Some (Some d', s') ->
  0 <= d' < 2 ^ 24.
Proof.
  induction n as [| n IH]; intros d s d' s' Hn Hd Hrun.
  - cbn [shiftIn] in Hrun. unfold ret in Hrun.
    injection Hrun as <- _. rewrite Z.sub_0_r in Hd. exact Hd.
  - cbn [shiftIn] in Hrun. rewrite (bind_Some _ _ _ _ _ (timedPulse_run dev s)) in Hrun.
    destruct (_ >=? 60).
    + rewrite (bind_Some _ _ _ _ _ (log_run _ _)) in Hrun. discriminate.
    + rewrite (bind_Some _ _ _ _ _ (digitalRead_run dev _)) in Hrun.
      apply IH in Hrun; [exact Hrun | lia |].
      assert (2 ^ (24 - Z.of_nat (S n)) <= 2 ^ 23)
        by (apply Z.pow_le_mono_r; lia).
      rewrite shl_or_bit by (try lia; destruct (dataLevel dev _); simpl; lia).
      replace (24 - Z.of_nat n) with (Z.succ (24 - Z.of_nat (S n))) by lia.
      rewrite Z.pow_succ_r by lia.
      destruct (dataLevel dev _); simpl Z.b2z; lia.
Qed.

(** With fast pulses, the 24 reads of the data pin rebuild the pattern that
    the device presents. *)
Lemma shiftIn_presents P n : forall s,
  0 <= P < 2 ^ 24 ->
  (n <= 24)%nat ->
  fastPulses dev (ticks s) n ->
  (forall i, (i < n)%nat ->
     dataLevel dev (reads s + i) = Z.testbit P (Z.of_nat n - 1 - Z.of_nat i)) ->
  shiftIn dev n (P / 2 ^ Z.of_nat n) s =
  Some (Some P, advance n (2 * n) (pulseEvents n) s).
Proof.
  induction n as [| n IH]; intros s HP Hn Hfast Hbits.
  - cbn [shiftIn]. unfold ret. rewrite advance_0.
    change (2 ^ Z.of_nat 0) with 1. rewrite Z.div_1_r. reflexivity.
  - cbn [shiftIn]. step (timedPulse_run dev s).
    pose proof (fastPulses_head _ _ _ Hfast) as Hhead.
    destruct (Z.geb_spec (microtime dev (S (ticks s)) - microtime dev (ticks s)) 60)
      as [Hslow | _]; [lia |].
    step (digitalRead_run dev (advance 0 2 (pulseEvents 1) s)).
    cbn [reads advance Nat.add].
    rewrite <- (Nat.add_0_r (reads s)), (Hbits 0%nat) by lia.
    replace (Z.of_nat (S n) - 1 - Z.of_nat 0) with (Z.of_nat n) by lia.
    assert (Hpos : 0 < 2 ^ Z.of_nat n) by (apply Z.pow_pos_nonneg; lia).
    assert (Hdiv : P / 2 ^ Z.of_nat (S n) = P / 2 ^ Z.of_nat n / 2).
    { rewrite Nat2Z.inj_succ, Z.pow_succ_r by lia.
      rewrite (Z.mul_comm 2), Z.div_div by lia. reflexivity. }
    assert (Hsmall : 0 <= P / 2 ^ Z.of_nat (S n) < 2 ^ 23).
    { rewrite Nat2Z.inj_succ, Z.pow_succ_r by lia. split.
      - apply Z.div_pos; lia.
      - apply Z.div_lt_upper_bound; [lia |].
        change (2 ^ 24) with (2 * 2 ^ 23) in HP. nia. }
    rewrite shl_or_bit
      by (try exact Hsmall; destruct (Z.testbit P (Z.of_nat n)); simpl; lia).
    assert (Hstep : 2 * (P / 2 ^ Z.of_nat (S n)) + Z.b2z (Z.testbit P (Z.of_nat n))
                    = P / 2 ^ Z.of_nat n).
    { rewrite Hdiv, Z.testbit_spec' by lia.
      pose proof (Z.div_mod (P / 2 ^ Z.of_nat n) 2 ltac:(lia)).
      pose proof (Z.mod_pos_bound (P / 2 ^ Z.of_nat n) 2 ltac:(lia)).
      lia. }
    rewrite Hstep, IH.
    + f_equal. f_equal. merge_advance.
    + exact HP.
    + lia.
    + cbn [ticks advance]. rewrite (Nat.add_comm 2).
      apply fastPulses_tail. exact Hfast.
    + intros i Hi. at_read (reads s + S i)%nat. rewrite Hbits by lia.
      f_equal. lia.
Qed.

(** A data pulse of 60 microseconds or more, after [i] fast ones, ends the
    loop over the bits without a pattern. *)
Lemma shiftIn_slow n : forall i d s,
  (i < n)%nat ->
  fastPulses dev (ticks s) i ->
  60 <= microtime dev (S (ticks s + 2 * i)) - microtime dev (ticks s + 2 * i) ->
  shiftIn dev n d s =
  Some (None,
        advance i (2 * S i)
          (pulseEvents (S i) ++
           [LogSlowPulse (microtime dev (S (ticks s + 2 * i))
                          - microtime dev (ticks s + 2 * i))]) s).
Proof.
  induction n as [| n IH]; intros i d s Hi Hfast Hslow; [lia |].
  cbn [shiftIn]. step (timedPulse_run dev s).
  destruct i as [| i].
  - rewrite Nat.mul_0_r, Nat.add_0_r in *.
    destruct (Z.geb_spec (microtime dev (S (ticks s)) - microtime dev (ticks s)) 60)
      as [_ | Hlt]; [| lia].
    step (log_run (LogSlowPulse (microtime dev (S (ticks s)) - microtime dev (ticks s)))
            (advance 0 2 (pulseEvents 1) s)).
    unfold ret. f_equal. f_equal. merge_advance.
  - pose proof (fastPulses_head _ _ _ Hfast) as Hhead.
    destruct (Z.geb_spec (microtime dev (S (ticks s)) - microtime dev (ticks s)) 60)
      as [Hge | _]; [lia |].
    step (digitalRead_run dev (advance 0 2 (pulseEvents 1) s)).
    rewrite (IH i); cbn [ticks advance].
    + replace (0 + (2 + ticks s) + 2 * i)%nat with (ticks s + 2 * S i)%nat by lia.
      f_equal. f_equal. merge_advance.
    + lia.
    + replace (0 + (2 + ticks s))%nat with (ticks s + 2)%nat by lia.
      apply fastPulses_tail. exact Hfast.
    + replace (0 + (2 + ticks s) + 2 * i)%nat with (ticks s + 2 * S i)%nat by lia.
      exact Hslow.
Qed.

(** Up to the gain pulses: the state after the 24 bits of [P] have been
    shifted in, and what is left to run. *)
Lemma readRaw_shifted fuel s k P :
  0 <= P < 2 ^ 24 ->
  (k <= maxAttempts)%nat ->
  readyAfter dev (reads s) k ->
  presents dev (reads s + S k) P ->
  fastPulses dev (ticks s) 24 ->
  readRaw dev fuel s =
  bind (setChannelGain dev fuel (channelGain s) false)
    (fun _ =>
       msleep 1 ;;
       (if isSentinel P then log (LogInvalidData P) else ret tt) ;;
       ret (decode P))
    (advance 24 (2 * 24) (pulseEvents 24)
       (advance (S k) 0 (repeat (Sleep 1) k)
          (advance 0 0 [ClockWrite false] s))).
Proof.
  intros HP Hk Hready Hbits Hdata.
  unfold readRaw. step (clockWrite_run false s).
  step (awaitReady_ready k maxAttempts
          (advance 0 0 [ClockWrite false] s) Hk Hready).
  cbn [negb].
  assert (Hshift :
    shiftIn dev 24 0
      (advance (S k) 0 (repeat (Sleep 1) k) (advance 0 0 [ClockWrite false] s))
    = Some (Some P,
            advance 24 (2 * 24) (pulseEvents 24)
              (advance (S k) 0 (repeat (Sleep 1) k)
                 (advance 0 0 [ClockWrite false] s)))).
  { rewrite <- (Z.div_small P (2 ^ Z.of_nat 24)) at 1 by exact HP.
    apply shiftIn_presents; [exact HP | lia | exact Hdata |].
    intros i Hi. at_read (reads s + S k + i)%nat. rewrite (Hbits i Hi).
    f_equal. }
  step Hshift.
  unfold getChannelGain at 1, bind at 1. cbn [channelGain advance].
  reflexivity.
Qed.

(** Without fuel the gain pulses cannot run. *)
Lemma readRaw_shifted_no_fuel s k P :
  0 <= P < 2 ^ 24 ->
  (k <= maxAttempts)%nat ->
  readyAfter dev (reads s) k ->
  presents dev (reads s + S k) P ->
  fastPulses dev (ticks s) 24 ->
  readRaw dev 0 s = None.
Proof.
  intros HP Hk Hready Hbits Hdata.
  rewrite (readRaw_shifted 0 s k P HP Hk Hready Hbits Hdata).
  reflexivity.
Qed.

Lemma readRaw_presents fuel s k P :
  0 <= P < 2 ^ 24 ->
  (k <= maxAttempts)%nat ->
  (0 < fuel)%nat ->
  readyAfter dev (reads s) k ->
  presents dev (reads s + S k) P ->
  fastPulses dev (ticks s) (24 + basePulses (channelGain s)) ->
  readRaw dev fuel s =
  Some (decode P,
        advance (S k + 24) (2 * (24 + basePulses (channelGain s)))
          (readEvents k (basePulses (channelGain s)) P) s).
Proof.
  intros HP Hk Hfuel Hready Hbits Hfast.
  apply fastPulses_split in Hfast. destruct Hfast as [Hdata Hconf].
  rewrite (readRaw_shifted fuel s k P HP Hk Hready Hbits Hdata).
  match goal with
  | |- bind (setChannelGain dev fuel ?g false) _ ?st = _ =>
      assert (Hconf' : fastPulses dev (ticks st) (basePulses g))
        by (cbn [ticks advance];
            replace (2 * 24 + (0 + (0 + ticks s)))%nat
              with (ticks s + 2 * 24)%nat by lia;
            exact Hconf);
      step (setChannelGain_plain dev fuel g st Hfuel Hconf')
  end.
  rewrite (bind_Some _ _ _ _ _ (msleep_run 1 _)).
  unfold decode, readEvents. destruct (isSentinel P).
  - rewrite (bind_Some _ _ _ _ _ (log_run _ _)). unfold ret.
    f_equal. f_equal. rewrite !advance_advance.
    apply advance_ext; [lia | lia |].
    rewrite pulseEvents_app. cbn [app]. rewrite <- !app_assoc. reflexivity.
  - unfold ret at 1, bind at 1. unfold ret.
    f_equal. f_equal. rewrite !advance_advance.
    apply advance_ext; [lia | lia |].
    rewrite pulseEvents_app. cbn [app]. rewrite <- !app_assoc.
    reflexivity.
Qed.

(** A device that stays not ready through all the polls makes the read
    give up, before any pulse. *)
Lemma readRaw_gives_up fuel s :
  (forall j, (j <= maxAttempts)%nat -> dataLevel dev (reads s + j) = true) ->
  readRaw dev fuel s =
  Some (RawFalse,
        advance (S maxAttempts) 0
          (ClockWrite false :: repeat (Sleep 1) (S maxAttempts)) s).
Proof.
  intros Hhigh. unfold readRaw. step (clockWrite_run false s).
  step (awaitReady_gives_up maxAttempts
          (advance 0 0 [ClockWrite false] s) Hhigh).
  cbn [negb]. unfold ret. f_equal. f_equal. rewrite advance_advance.
  apply advance_ext; reflexivity.
Qed.

(** A slow data pulse ends the read at once: nothing follows the log
    line. *)
Lemma readRaw_slow_pulse fuel s k i :
  (k <= maxAttempts)%nat ->
  (i < 24)%nat ->
  readyAfter dev (reads s) k ->
  fastPulses dev (ticks s) i ->
  60 <= microtime dev (S (ticks s + 2 * i)) - microtime dev (ticks s + 2 * i) ->
  readRaw dev fuel s =
  Some (RawFalse,
        advance (S k + i) (2 * S i)
          (ClockWrite false :: repeat (Sleep 1) k ++ pulseEvents (S i) ++
           [LogSlowPulse (microtime dev (S (ticks s + 2 * i))
                          - microtime dev (ticks s + 2 * i))]) s).
Proof.
  intros Hk Hi Hready Hfast Hslow.
  unfold readRaw. step (clockWrite_run false s).
  step (awaitReady_ready k maxAttempts
          (advance 0 0 [ClockWrite false] s) Hk Hready).
  cbn [negb].
  rewrite (bind_Some _ _ _ _ _
             (shiftIn_slow 24 i 0
                (advance (S k) 0 (repeat (Sleep 1) k)
                   (advance 0 0 [ClockWrite false] s)) Hi Hfast Hslow)).
  unfold ret. f_equal. f_equal. rewrite !advance_advance.
  apply advance_ext; [lia | lia |]. cbn [app ticks advance Nat.add].
  rewrite <- ?app_assoc. reflexivity.
Qed.

(** Whatever the device does, a sample that [__readRaw] returns comes from
    a 24-bit pattern that is not a sentinel. *)
Lemma readRaw_sample_pattern fuel s v s' :
  readRaw dev fuel s = Some (RawNumber v, s') ->
  exists P, 0 <= P < 2 ^ 24 /\ isSentinel P = false /\ v = signedData P.
Proof.
  unfold readRaw. intros Hrun.
  rewrite (bind_Some _ _ _ _ _ (clockWrite_run false s)) in Hrun.
  apply bind_inv in Hrun. destruct Hrun as (ready & s1 & _ & Hrun).
  destruct ready; cbn [negb] in Hrun; [| discriminate].
  apply bind_inv in Hrun. destruct Hrun as (shifted & s2 & Hshift & Hrun).
  destruct shifted as [P |]; [| discriminate].
  apply shiftIn_range in Hshift; [| lia | simpl; lia].
  exists P. split; [exact Hshift |].
  apply bind_inv in Hrun. destruct Hrun as (g & s3 & _ & Hrun).
  apply bind_inv in Hrun. destruct Hrun as (? & s4 & _ & Hrun).
  apply bind_inv in Hrun. destruct Hrun as (? & s5 & _ & Hrun).
  apply bind_inv in Hrun. destruct Hrun as (? & s6 & _ & Hrun).
  unfold ret, decode in Hrun. destruct (isSentinel P); [discriminate |].
  injection Hrun as <- _. auto.
Qed.

End RawRead.

(** ** Decoding of the 24-bit pattern *)

(** C1.  Let a raw read find the device ready after [k] polls, shift in the
    24 bits of a pattern [P] with fast pulses, and send the gain pulses.  It
    returns what the end of [__readRaw] makes of [P]: for the sentinels
    0x7FFFFF and 0x800000 the read fails, its last action being the
    "Invalid data" log line; for every other pattern the sample is [P] when
    bit 23 is clear and [-((P xor 0xFFFFFF) + 1)] when it is set, and it lies
    in [-2^23, 2^23 - 1].  In particular 0x000000 gives 0, 0xFFFFFE gives -2,
    0x000001 gives 1 and 0x800001 gives -(2^23 - 1). *)
Theorem readRaw_decodes_pattern dev fuel s k P :
  0 <= P < 2 ^ 24 ->
  (k <= maxAttempts)%nat ->
  (0 < fuel)%nat ->
  readyAfter dev (reads s) k ->
  presents dev (reads s + S k) P ->
  fastPulses dev (ticks s) (24 + basePulses (channelGain s)) ->
  readRaw dev fuel s =
    Some (decode P,
          advance (S k + 24) (2 * (24 + basePulses (channelGain s)))
            (readEvents k (basePulses (channelGain s)) P) s) /\
  (P = 0x7fffff \/ P = 0x800000 ->
   decode P = RawFalse /\
   exists es, readEvents k (basePulses (channelGain s)) P
              = es ++ [LogInvalidData P]) /\
  (P <> 0x7fffff -> P <> 0x800000 ->
   exists v, decode P = RawNumber v /\
     v = (if Z.testbit P 23 then - (Z.lxor P 0xffffff + 1) else P) /\
     - 2 ^ 23 <= v <= 2 ^ 23 - 1) /\
  decode 0x000000 = RawNumber 0 /\
  decode 0xfffffe = RawNumber (-2) /\
  decode 0x000001 = RawNumber 1 /\
  decode 0x800001 = RawNumber (- (2 ^ 23 - 1)).
Proof.
  intros HP Hk Hfuel Hready Hbits Hfast.
  destruct (decode_spec P HP) as [Hbad Hgood].
  split; [apply readRaw_presents; assumption |].
  split; [| split].
  - intros Hs. split; [exact (Hbad Hs) |].
    unfold readEvents. apply isSentinel_spec in Hs. rewrite Hs.
    exists (ClockWrite false :: repeat (Sleep 1) k ++
            pulseEvents (24 + basePulses (channelGain s)) ++ [Sleep 1]).
    cbn [app]. rewrite <- !app_assoc. reflexivity.
  - intros H1 H2. destruct (Hgood H1 H2) as (v & Hv & Hform & Hrange).
    exists v. repeat split; try assumption; lia.
  - repeat split; reflexivity.
Qed.

Lemma readRaw_decodes_pattern_witness :
  readRaw (sampleDevice (fun _ => 0xfffffe)) 1 (constructed None None) =
  Some (RawNumber (-2),
        advance 25 50 (readEvents 0 1 0xfffffe) (constructed None None)).
Proof.
  refine (proj1 (readRaw_decodes_pattern
                   (sampleDevice (fun _ => 0xfffffe)) 1 (constructed None None)
                   0 0xfffffe _ _ _ _ _ _)).
  - lia.
  - apply Nat.le_0_l.
  - apply Nat.lt_0_1.
  - split; [intros j Hj; inversion Hj | reflexivity].
  - intros i Hi.
    do 24 (destruct i as [| i]; [reflexivity |]).
    exfalso. lia.
  - intros j Hj. simpl microtime. lia.
Defined.

(** C10.  A sample that a raw read returns is never one of the extreme
    values: it lies in [-(2^23 - 1), 2^23 - 2], whatever the device does. *)
Theorem readRaw_sample_range dev fuel s v s' :
  readRaw dev fuel s = Some (RawNumber v, s') ->
  - (2 ^ 23 - 1) <= v <= 2 ^ 23 - 2.
Proof.
  intros Hrun.
  destruct (readRaw_sample_pattern dev fuel s v s' Hrun) as (P & HP & Hs & ->).
  destruct (signedData_spec P HP) as [_ ->].
  unfold isSentinel in Hs. apply orb_false_iff in Hs.
  destruct Hs as [H1 H2]. apply Z.eqb_neq in H1, H2.
  destruct (Z.leb_spec (2 ^ 23) P); lia.
Qed.

Lemma readRaw_sample_range_witness :
  readRaw (sampleDevice (fun _ => 0x800001)) 1 (constructed None None) =
    Some (RawNumber (- (2 ^ 23 - 1)),
          advance 25 50 (readEvents 0 1 0x800001) (constructed None None)) /\
  - (2 ^ 23 - 1) <= - (2 ^ 23 - 1) <= 2 ^ 23 - 2.
Proof.
  assert (Hrun :
    readRaw (sampleDevice (fun _ => 0x800001)) 1 (constructed None None) =
    Some (RawNumber (- (2 ^ 23 - 1)),
          advance 25 50 (readEvents 0 1 0x800001) (constructed None None)))
    by (vm_compute; reflexivity).
  split; [exact Hrun |].
  exact (readRaw_sample_range _ _ _ _ _ Hrun).
Defined.

(** ** Configuration pulses *)

(** C4.  With pulses that stay under 60 microseconds, [__setChannelGain]
    issues exactly 1 pulse for channel A at gain 128, 3 for channel A at gain
    64 and 2 for channel B at gain 32.  Called with [isInit] it issues 24
    more, and before the first pulse it polls the data pin until it reads
    ready, sleeping one millisecond after each of the [k] polls that do
    not. *)
Theorem setChannelGain_pulses dev fuel g (isInit : bool) (k : nat) s :
  (S k < fuel)%nat ->
  (if isInit then readyAfter dev (reads s) k else k = 0%nat) ->
  fastPulses dev (ticks s) (timesToPulse g isInit) ->
  timesToPulse g isInit =
    (match g with
     | CHANNEL_A_GAIN_128 => 1
     | CHANNEL_A_GAIN_64 => 3
     | CHANNEL_B_GAIN_32 => 2
     end + (if isInit then 24 else 0))%nat /\
  setChannelGain dev fuel g isInit s =
    Some (true,
          advance (if isInit then S k else 0) (2 * timesToPulse g isInit)
            (repeat (Sleep 1) k ++ pulseEvents (timesToPulse g isInit)) s) /\
  pulseCount (repeat (Sleep 1) k ++ pulseEvents (timesToPulse g isInit))
    = timesToPulse g isInit.
Proof.
  intros Hfuel Hready Hfast. split; [destruct g; reflexivity |]. split.
  - destruct isInit.
    + apply setChannelGain_init; assumption.
    + subst k. unfold timesToPulse in *. rewrite Nat.add_0_r in *.
      apply setChannelGain_plain; [lia | exact Hfast].
  - rewrite pulseCount_app, pulseCount_sleeps, pulseCount_pulseEvents.
    reflexivity.
Qed.

Lemma setChannelGain_pulses_witness :
  setChannelGain lateDevice 5 CHANNEL_A_GAIN_64 true (constructed None None) =
  Some (true,
        advance 4 54 (repeat (Sleep 1) 3 ++ pulseEvents 27)
          (constructed None None)).
Proof.
  refine (proj1 (proj2 (setChannelGain_pulses
                          lateDevice 5 CHANNEL_A_GAIN_64 true 3
                          (constructed None None) _ _ _))).
  - repeat constructor.
  - split; [| reflexivity].
    intros j Hj. do 3 (destruct j as [| j]; [reflexivity |]). exfalso. lia.
  - intros j Hj. simpl microtime. lia.
Defined.

(** ** Readiness polling *)

(** C6.  The readiness loop of a raw read always ends: it polls the data pin
    (low means ready) at most 10000 times, sleeping one millisecond after
    each failed poll.  When the device does not read ready at any of these
    polls, the raw read returns [false] (not ready) without a single
    pulse. *)
Theorem readRaw_not_ready dev fuel s :
  Z.of_nat (S maxAttempts) = 10000 /\
  (exists (ready : bool) (polls : nat),
     awaitReady dev maxAttempts s =
       Some (ready,
             advance polls 0
               (repeat (Sleep 1) (if ready then pred polls else polls)) s) /\
     (1 <= polls <= S maxAttempts)%nat) /\
  ((forall j, (j <= maxAttempts)%nat -> dataLevel dev (reads s + j) = true) ->
   readRaw dev fuel s =
     Some (RawFalse,
           advance (S maxAttempts) 0
             (ClockWrite false :: repeat (Sleep 1) (S maxAttempts)) s)).
Proof.
  split; [reflexivity |]. split.
  - destruct (awaitReady_total dev maxAttempts s) as (ready & polls & Hrun & Hb & _).
    exists ready, polls. auto.
  - apply readRaw_gives_up.
Qed.

Lemma readRaw_not_ready_witness :
  readRaw deadDevice 0 (constructed None None) =
  Some (RawFalse,
        advance (S maxAttempts) 0
          (ClockWrite false :: repeat (Sleep 1) (S maxAttempts))
          (constructed None None)).
Proof.
  apply (proj2 (proj2 (readRaw_not_ready deadDevice 0 (constructed None None)))).
  intros j Hj. reflexivity.
Defined.

(** ** Timing violations during the transfer *)

(** C2 (what the code does).  On a device whose first data pulse takes 60
    microseconds, with the driver set to channel A at gain 64, the raw read
    logs the slow pulse and returns [false] at once: one pulse in all, and no
    configuration sequence.  The retry of the caller then starts with data
    pulses: its trace goes on with an ordinary read (24 data pulses and the 3
    pulses of the gain), where a re-issued configuration with [isInit] would
    have put 27 pulses first. *)
Theorem readRaw_slow_pulse_skips_resync :
  let s0 := constructed None (Some CHANNEL_A_GAIN_64) in
  let failure :=
    [ClockWrite false; ClockWrite true; ClockWrite false; LogSlowPulse 60] in
  (forall fuel,
     readRaw slowFirstPulse fuel s0 = Some (RawFalse, advance 1 2 failure s0)) /\
  pulseCount failure = 1%nat /\
  readUntilSample slowFirstPulse 3 s0 =
    Some (0, advance 26 56 (failure ++ readEvents 0 3 0) s0) /\
  setChannelGain slowFirstPulse 2 CHANNEL_A_GAIN_64 true (advance 1 2 failure s0) =
    Some (true, advance 1 54 (pulseEvents 27) (advance 1 2 failure s0)).
Proof.
  intros s0 failure. split; [| split; [| split]].
  - intros fuel.
    apply (readRaw_slow_pulse slowFirstPulse fuel s0 0 0).
    + apply Nat.le_0_l.
    + lia.
    + split; [intros j Hj; inversion Hj | reflexivity].
    + intros j Hj. inversion Hj.
    + simpl. lia.
  - reflexivity.
  - vm_compute. reflexivity.
  - vm_compute. reflexivity.
Qed.

(** ** What the operations leave alone *)

Section Frame.

Variable R : HX711 -> HX711 -> Prop.
Hypothesis R_refl : forall s, R s s.
Hypothesis R_trans : forall s1 s2 s3, R s1 s2 -> R s2 s3 -> R s1 s3.
Hypothesis R_emit : forall e s, R s (emit e s).
Hypothesis R_read : forall s, R s (next_read s).
Hypothesis R_tick : forall s, R s (next_tick s).

Variable dev : Device.

Lemma Preserves_ret A (a : A) : Preserves R (ret a).
Proof. intros s a' s' H. injection H as _ <-. apply R_refl. Qed.

Lemma Preserves_bind A B (m : M A) (k : A -> M B) :
  Preserves R m -> (forall a, Preserves R (k a)) -> Preserves R (bind m k).
Proof.
  intros Hm Hk s b s2 Hrun. apply bind_inv in Hrun.
  destruct Hrun as (a & s1 & H1 & H2).
  eapply R_trans; [eapply Hm | eapply Hk]; eassumption.
Qed.

Lemma Preserves_out_of_fuel A : Preserves R (@out_of_fuel A).
Proof. intros s a s' H. discriminate. Qed.

Lemma Preserves_if A (b : bool) (m1 m2 : M A) :
  Preserves R m1 -> Preserves R m2 -> Preserves R (if b then m1 else m2).
Proof. destruct b; auto. Qed.

Lemma Preserves_digitalRead : Preserves R (digitalRead dev).
Proof. intros s a s' H. injection H as _ <-. apply R_read. Qed.

Lemma Preserves_microtime : Preserves R (now dev).
Proof. intros s a s' H. injection H as _ <-. apply R_tick. Qed.

Lemma Preserves_clockWrite level : Preserves R (clockWrite level).
Proof. intros s a s' H. injection H as _ <-. apply R_emit. Qed.

Lemma Preserves_msleep ms : Preserves R (msleep ms).
Proof. intros s a s' H. injection H as _ <-. apply R_emit. Qed.

Lemma Preserves_log e : Preserves R (log e).
Proof. intros s a s' H. injection H as _ <-. apply R_emit. Qed.

Lemma Preserves_getChannelGain : Preserves R getChannelGain.
Proof. intros s a s' H. injection H as _ <-. apply R_refl. Qed.

Hint Resolve Preserves_ret Preserves_bind Preserves_out_of_fuel
  Preserves_if Preserves_digitalRead Preserves_microtime
  Preserves_clockWrite Preserves_msleep Preserves_log
  Preserves_getChannelGain : frame.

Lemma Preserves_isReady : Preserves R (isReady dev).
Proof. unfold isReady. auto with frame. Qed.

Lemma Preserves_timedPulse : Preserves R (timedPulse dev).
Proof. unfold timedPulse. auto 10 with frame. Qed.

Hint Resolve Preserves_isReady Preserves_timedPulse : frame.

Lemma Preserves_waitReady fuel : Preserves R (waitReady dev fuel).
Proof.
  induction fuel as [| fuel IH]; cbn [waitReady]; auto with frame.
Qed.

Lemma Preserves_configPulses n : Preserves R (configPulses dev n).
Proof.
  induction n as [| n IH]; cbn [configPulses]; auto with frame.
Qed.

Hint Resolve Preserves_waitReady Preserves_configPulses : frame.

Lemma Preserves_setChannelGain fuel :
  forall g isInit, Preserves R (setChannelGain dev fuel g isInit).
Proof.
  induction fuel as [| fuel IH]; intros g isInit; cbn [setChannelGain];
    auto 10 with frame.
Qed.

Lemma Preserves_awaitReady left : Preserves R (awaitReady dev left).
Proof.
  induction left as [| left IH]; cbn [awaitReady]; auto 10 with frame.
Qed.

Lemma Preserves_shiftIn n : forall d, Preserves R (shiftIn dev n d).
Proof.
  induction n as [| n IH]; intros d; cbn [shiftIn]; auto 10 with frame.
Qed.

Hint Resolve Preserves_setChannelGain Preserves_awaitReady
  Preserves_shiftIn : frame.

Lemma Preserves_readRaw fuel : Preserves R (readRaw dev fuel).
Proof.
  unfold readRaw.
  apply Preserves_bind; [auto with frame |]. intros _.
  apply Preserves_bind; [auto with frame |]. intros ready.
  destruct ready; cbn [negb]; [| auto with frame].
  apply Preserves_bind; [auto with frame |]. intros [data_in |];
    [| auto with frame].
  apply Preserves_bind; [auto with frame |]. intros g.
  apply Preserves_bind; [auto with frame |]. intros _.
  apply Preserves_bind; [auto with frame |]. intros _.
  apply Preserves_bind; [| auto with frame].
  destruct (isSentinel data_in); auto with frame.
Qed.

Hint Resolve Preserves_readRaw : frame.

Lemma Preserves_readUntilSample fuel : Preserves R (readUntilSample dev fuel).
Proof.
  induction fuel as [| fuel IH]; cbn [readUntilSample]; auto with frame.
  apply Preserves_bind; [auto with frame |].
  intros [| v]; auto with frame.
Qed.

Hint Resolve Preserves_readUntilSample : frame.

Lemma Preserves_sumSamples fuel n :
  forall sum, Preserves R (sumSamples dev fuel n sum).
Proof.
  induction n as [| n IH]; intros sum; cbn [sumSamples]; auto with frame.
Qed.

Hint Resolve Preserves_sumSamples : frame.

Lemma Preserves_readRawAverage fuel numberOfTimes :
  Preserves R (readRawAverage dev fuel numberOfTimes).
Proof. unfold readRawAverage. auto with frame. Qed.

Hint Resolve Preserves_readRawAverage : frame.

Lemma Preserves_readAverage fuel numberOfTimes :
  (forall v s, R s (set_latestReading v s)) ->
  Preserves R (readAverage dev fuel numberOfTimes).
Proof.
  intros Hset. unfold readAverage.
  apply Preserves_bind; [auto with frame |].
  intros average s a s' H. injection H as _ <-. apply Hset.
Qed.

Lemma Preserves_tare fuel :
  (forall v s, R s (set_offset v s)) -> Preserves R (tare dev fuel).
Proof.
  intros Hset. unfold tare.
  apply Preserves_bind; [auto with frame |].
  intros average s a s' H. injection H as _ <-. apply Hset.
Qed.

Lemma Preserves_calibrateScale fuel knownWeight :
  (forall v s, R s (set_scale v s)) ->
  Preserves R (calibrateScale dev fuel knownWeight).
Proof.
  intros Hset. unfold calibrateScale.
  apply Preserves_bind; [auto with frame |].
  intros average s a s' H. injection H as _ <-. apply Hset.
Qed.

Lemma Preserves_taring fuel :
  (forall v s, R s (set_latestReading v s)) ->
  (forall v s, R s (set_offset v s)) ->
  Preserves R (taring dev fuel).
Proof.
  intros Hl Ho.
  induction fuel as [| fuel IH]; cbn [taring]; auto with frame.
  apply Preserves_bind; [apply Preserves_readAverage; exact Hl |].
  intros reading. apply Preserves_if; [| auto with frame].
  apply Preserves_bind; [apply Preserves_tare; exact Ho | auto].
Qed.

Lemma Preserves_begin fuel :
  (forall v s, R s (set_latestReading v s)) ->
  (forall v s, R s (set_offset v s)) ->
  Preserves R (begin dev fuel).
Proof.
  intros Hl Ho. unfold begin.
  apply Preserves_bind; [auto with frame |]. intros g.
  apply Preserves_bind; [destruct (negb _); auto with frame |]. intros _.
  apply Preserves_bind; [apply Preserves_taring; assumption | auto with frame].
Qed.

End Frame.

Lemma keepsCalibration_refl s : keepsCalibration s s.
Proof. split; reflexivity. Qed.

Lemma keepsCalibration_trans s1 s2 s3 :
  keepsCalibration s1 s2 -> keepsCalibration s2 s3 -> keepsCalibration s1 s3.
Proof. unfold keepsCalibration. intuition congruence. Qed.

Lemma keepsScale_trans s1 s2 s3 :
  keepsScale s1 s2 -> keepsScale s2 s3 -> keepsScale s1 s3.
Proof. unfold keepsScale. congruence. Qed.

Lemma keepsOffset_trans s1 s2 s3 :
  keepsOffset s1 s2 -> keepsOffset s2 s3 -> keepsOffset s1 s3.
Proof. unfold keepsOffset. congruence. Qed.

(** Below the calibration layer nothing touches the fields of the object. *)
Lemma readRawAverage_sameFields dev fuel n :
  Preserves sameFields (readRawAverage dev fuel n).
Proof.
  apply Preserves_readRawAverage;
    solve [ apply sameFields_refl | apply sameFields_trans
          | intros; unfold sameFields; simpl; auto ].
Qed.

(** C9.  Offset is written by [tare] only and Scale by [calibrateScale]
    only: [__setChannelGain], [__readRaw], [__readRawAverage], [readAverage]
    and [read] leave both as they were, [tare] leaves Scale, [calibrateScale]
    leaves Offset, and [__begin], which the constructor runs and which calls
    [tare], leaves Scale. *)
Theorem offset_scale_frame dev fuel :
  (forall g isInit,
     Preserves keepsCalibration (setChannelGain dev fuel g isInit)) /\
  Preserves keepsCalibration (readRaw dev fuel) /\
  (forall n, Preserves keepsCalibration (readRawAverage dev fuel n)) /\
  (forall n, Preserves keepsCalibration (readAverage dev fuel n)) /\
  Preserves keepsCalibration (read dev fuel) /\
  Preserves keepsScale (tare dev fuel) /\
  (forall knownWeight,
     Preserves keepsOffset (calibrateScale dev fuel knownWeight)) /\
  Preserves keepsScale (begin dev fuel).
Proof.
  assert (Hc : forall A (m : M A),
            (forall R : HX711 -> HX711 -> Prop,
               (forall s, R s s) ->
               (forall s1 s2 s3, R s1 s2 -> R s2 s3 -> R s1 s3) ->
               (forall e s, R s (emit e s)) ->
               (forall s, R s (next_read s)) ->
               (forall s, R s (next_tick s)) ->
               (forall v s, R s (set_latestReading v s)) ->
               Preserves R m) ->
            Preserves keepsCalibration m).
  { intros A m H. apply H;
      solve [ apply keepsCalibration_refl | apply keepsCalibration_trans
            | intros; split; reflexivity ]. }
  refine (conj _ (conj _ (conj _ (conj _ (conj _ (conj _ (conj _ _))))))).
  - intros g isInit. apply Hc. intros. apply Preserves_setChannelGain; auto.
  - apply Hc. intros. apply Preserves_readRaw; auto.
  - intros n. apply Hc. intros. apply Preserves_readRawAverage; auto.
  - intros n. apply Hc. intros. apply Preserves_readAverage; auto.
  - apply Hc. intros. apply Preserves_readAverage; auto.
  - apply Preserves_tare;
      solve [ reflexivity | apply keepsScale_trans | intros; reflexivity ].
  - intros knownWeight. apply Preserves_calibrateScale;
      solve [ reflexivity | apply keepsOffset_trans | intros; reflexivity ].
  - apply Preserves_begin;
      solve [ reflexivity | apply keepsScale_trans | intros; reflexivity ].
Qed.

Lemma offset_scale_frame_witness :
  exists r s',
    readAverage (sampleDevice (fun _ => 1000)) 2 3 (constructed None None)
      = Some (r, s') /\
    offset s' = Fin 0 /\ scale s' = Fin 35.
Proof.
  destruct (readAverage (sampleDevice (fun _ => 1000)) 2 3 (constructed None None))
    as [[r s'] |] eqn:Hrun; [| vm_compute in Hrun; discriminate].
  exists r, s'. split; [reflexivity |].
  exact (proj1 (proj2 (proj2 (proj2
           (offset_scale_frame (sampleDevice (fun _ => 1000)) 2)))) 3 _ _ _ Hrun).
Defined.

(** ** Sampling and averaging *)

Lemma is_zero_false q : Num.is_zero q = false <-> ~ (q == 0)%Q.
Proof.
  unfold Num.is_zero. split.
  - intros E H. apply Qeq_bool_iff in H. congruence.
  - intros H. destruct (Qeq_bool q 0) eqn:E; [| reflexivity].
    apply Qeq_bool_iff in E. contradiction.
Qed.

Lemma div_finite x y :
  ~ (y == 0)%Q -> Num.div (Fin x) (Fin y) = Fin (Qred (x / y)).
Proof.
  intros Hy. unfold Num.div. apply is_zero_false in Hy. rewrite Hy.
  reflexivity.
Qed.

Lemma div_of_Z a n :
  n <> 0 ->
  Num.div (Num.of_Z a) (Num.of_Z n) = Fin (Qred (inject_Z a / inject_Z n)).
Proof.
  intros Hn. apply div_finite. unfold Qeq. simpl. lia.
Qed.

Section Sampling.

Variable dev : Device.
Variable fuel : nat.

Lemma sumSamples_acquires s l s' :
  acquires dev fuel s l s' ->
  forall sum,
    sumSamples dev fuel (length l) sum s = Some (sum + sumZ l, s').
Proof.
  induction 1 as [s | s v s1 l s2 Hread Hrest IH]; intros sum.
  - simpl. unfold ret. rewrite Z.add_0_r. reflexivity.
  - cbn [length sumSamples]. step Hread. rewrite IH.
    unfold sumZ. simpl. f_equal. f_equal. lia.
Qed.

Lemma sumSamples_inv n : forall sum s total s',
  sumSamples dev fuel n sum s = Some (total, s') ->
  exists l, acquires dev fuel s l s' /\ length l = n /\ total = sum + sumZ l.
Proof.
  induction n as [| n IH]; intros sum s total s' Hrun.
  - injection Hrun as <- <-. exists []. split; [constructor |].
    split; [reflexivity | unfold sumZ; simpl; lia].
  - cbn [sumSamples] in Hrun. apply bind_inv in Hrun.
    destruct Hrun as (v & s1 & Hread & Hrest).
    apply IH in Hrest. destruct Hrest as (l & Hacq & Hlen & ->).
    exists (v :: l). split; [econstructor; eassumption |].
    split; [simpl; congruence | unfold sumZ; simpl; lia].
Qed.

(** For a count of at least one, the result is the exact mean of the
    samples acquired. *)
Lemma readRawAverage_mean numberOfTimes s l s' :
  1 <= numberOfTimes ->
  length l = Z.to_nat numberOfTimes ->
  acquires dev fuel s l s' ->
  readRawAverage dev fuel numberOfTimes s =
  Some (Fin (Qred (inject_Z (sumZ l) / inject_Z numberOfTimes)), s').
Proof.
  intros Hn Hlen Hacq. unfold readRawAverage.
  destruct (Z.ltb_spec numberOfTimes 0) as [Hneg | _]; [lia |].
  rewrite <- Hlen. step (sumSamples_acquires s l s' Hacq 0).
  unfold ret. rewrite Z.add_0_l, div_of_Z by lia. reflexivity.
Qed.

(** A run that returns, for a count of at least one, has acquired exactly
    that many samples and returns their mean. *)
Lemma readRawAverage_acquires numberOfTimes s r s' :
  1 <= numberOfTimes ->
  readRawAverage dev fuel numberOfTimes s = Some (r, s') ->
  exists l,
    acquires dev fuel s l s' /\
    length l = Z.to_nat numberOfTimes /\
    r = Fin (Qred (inject_Z (sumZ l) / inject_Z numberOfTimes)).
Proof.
  intros Hn Hrun. unfold readRawAverage in Hrun.
  destruct (Z.ltb_spec numberOfTimes 0) as [Hneg | _]; [lia |].
  apply bind_inv in Hrun. destruct Hrun as (sum & s1 & Hsum & Hret).
  injection Hret as <- <-.
  apply sumSamples_inv in Hsum. destruct Hsum as (l & Hacq & Hlen & ->).
  exists l. split; [exact Hacq |]. split; [exact Hlen |].
  rewrite Z.add_0_l. apply div_of_Z. lia.
Qed.

(** A negative count is taken as one. *)
Lemma readRawAverage_negative numberOfTimes s :
  numberOfTimes < 0 ->
  readRawAverage dev fuel numberOfTimes s = readRawAverage dev fuel 1 s.
Proof.
  intros Hneg. unfold readRawAverage.
  destruct (Z.ltb_spec numberOfTimes 0) as [_ | Hge]; [| lia].
  reflexivity.
Qed.

End Sampling.

(** C3 (what the code does).  A count of zero is not taken as one: the loop
    body never runs, no raw read is made, and the result is [0 / 0], that is
    NaN.  Only the counts below zero are replaced by one; on a device whose
    conversions all read 1000, the counts -3 and 1 both give the mean 1000 of
    one sample, and the count 0 gives NaN. *)
Theorem readRawAverage_zero_count :
  (forall dev fuel s, readRawAverage dev fuel 0 s = Some (NaN, s)) /\
  (let dev := sampleDevice (fun _ => 1000) in
   let s0 := constructed None None in
   readRawAverage dev 2 1 s0 = Some (Fin 1000, advance 25 50 (readEvents 0 1 1000) s0) /\
   readRawAverage dev 2 (-3) s0 = Some (Fin 1000, advance 25 50 (readEvents 0 1 1000) s0) /\
   readRawAverage dev 2 0 s0 = Some (NaN, s0)).
Proof.
  split; [reflexivity |].
  repeat split; vm_compute; reflexivity.
Qed.

(** ** Calibration *)

(** An integer of less than 54 bits is a binary64 number. *)
Lemma binary64_integer (z : Z) (q : Q) :
  Z.abs z < 2 ^ 53 -> (q == inject_Z z)%Q -> binary64 q.
Proof.
  intros Hz Hq. exists z, 0. split; [exact Hz |]. split; [lia |].
  change (Qpower 2 0) with 1%Q. rewrite Qmult_1_r. exact Hq.
Qed.




(** C8 (as amended).  Once ten samples have been acquired, [tare] sets Offset
    to minus their mean (the result of [__readRawAverage(10)]) and returns
    [true].  When Scale is neither zero nor NaN, [applyNormalisation] of that
    mean is 0 right afterwards. *)
Theorem tare_zeroes_reading dev fuel s l s1 :
  acquires dev fuel s l s1 ->
  length l = 10%nat ->
  let average := Qred (inject_Z (sumZ l) / inject_Z 10) in
  let s' := set_offset (Fin (Qred (-1 * average))) s1 in
  readRawAverage dev fuel 10 s = Some (Fin average, s1) /\
  tare dev fuel s = Some (true, s') /\
  (Num.truthy (scale s) = true ->
   applyNormalisation (Fin average) s' = Fin 0).
Proof.
  intros Hacq Hlen average s'.
  assert (Hrun : readRawAverage dev fuel 10 s = Some (Fin average, s1))
    by (apply (readRawAverage_mean dev fuel 10 s l s1); [lia | exact Hlen | exact Hacq]).
  split; [exact Hrun |]. split.
  - unfold tare. step Hrun. reflexivity.
  - intros Hscale.
    pose proof (readRawAverage_sameFields dev fuel 10 _ _ _ Hrun) as (_ & Hsc & _).
    unfold applyNormalisation. cbn [offset scale set_offset s'].
    rewrite Hsc. unfold Num.add.
    assert (Hzero : Qred (average + Qred (-1 * average)) = 0%Q).
    { change 0%Q with (Qred 0). apply Qred_complete.
      rewrite Qred_correct. ring. }
    rewrite Hzero.
    destruct (scale s) as [sc | | |]; cbn [Num.truthy] in Hscale;
      try discriminate; try reflexivity.
    apply negb_true_iff, is_zero_false in Hscale.
    rewrite div_finite by exact Hscale.
    reflexivity.
Qed.

Lemma tare_zeroes_reading_witness :
  let dev := sampleDevice (fun q => 1000 + Z.of_nat q) in
  let s0 := constructed None None in
  exists s',
    tare dev 2 s0 = Some (true, s') /\
    offset s' = Fin (- (2009 # 2)) /\
    applyNormalisation (Fin (2009 # 2)) s' = Fin 0.
Proof.
  intros dev s0.
  assert (Hacq : exists s1,
            acquires dev 2 s0
              [1000; 1001; 1002; 1003; 1004; 1005; 1006; 1007; 1008; 1009] s1).
  { eexists. repeat (eapply acquires_cons; [vm_compute; reflexivity |]).
    apply acquires_nil. }
  destruct Hacq as [s1 Hacq].
  destruct (tare_zeroes_reading dev 2 s0 _ s1 Hacq eq_refl)
    as (_ & Htare & Hnorm).
  eexists. split; [exact Htare |]. split; [reflexivity |].
  apply Hnorm. reflexivity.
Defined.

(** C8 as stated fails: after [calibrateScale(1)] on a device whose
    conversions all read 0, Scale is 0; [tare] then sets Offset to minus the
    mean, and [applyNormalisation] of that mean is [0 / 0], NaN, not 0. *)
Lemma tare_zeroes_reading_fails :
  scale afterZeroCalibration = Fin 0 /\
  ~ (forall dev fuel s average s1,
       readRawAverage dev fuel 10 s = Some (average, s1) ->
       exists s',
         tare dev fuel s = Some (true, s') /\
         applyNormalisation average s' = Fin 0).
Proof.
  split; [vm_compute; reflexivity |].
  intros H.
  destruct (readRawAverage zeroDevice 2 10 afterZeroCalibration)
    as [[r s1] |] eqn:Hrun; [| vm_compute in Hrun; discriminate].
  destruct (H zeroDevice 2%nat afterZeroCalibration r s1 Hrun)
    as (s' & Htare & Hnorm).
  vm_compute in Hrun. injection Hrun as <- <-.
  vm_compute in Htare. injection Htare as <-.
  vm_compute in Hnorm. discriminate.
Qed.

(** ** A device that converts on demand *)

Section SampleDevice.

Variable sample : nat -> Z.
Hypothesis sample_range : forall q, 0 <= sample q < 2 ^ 24.

Lemma sampleDevice_ready q : readyAfter (sampleDevice sample) (25 * q) 0.
Proof.
  split; [intros j Hj; inversion Hj |].
  cbn [dataLevel sampleDevice].
  replace (25 * q + 0)%nat with (0 + q * 25)%nat by lia.
  rewrite Nat.Div0.mod_add. reflexivity.
Qed.

Lemma sampleDevice_presents q :
  presents (sampleDevice sample) (25 * q + 1) (sample q).
Proof.
  intros i Hi. cbn [dataLevel sampleDevice].
  replace (25 * q + 1 + i)%nat with (S i + q * 25)%nat by lia.
  rewrite Nat.Div0.mod_add, Nat.div_add by lia.
  rewrite Nat.mod_small, Nat.div_small by lia. cbn [Nat.add].
  f_equal. lia.
Qed.

Lemma sampleDevice_fast t n : fastPulses (sampleDevice sample) t n.
Proof. intros j Hj. cbn [microtime sampleDevice]. lia. Qed.

(** A raw read that starts on a conversion boundary returns what [decode]
    makes of that conversion, provided there is fuel for the gain
    pulses. *)
Lemma sampleDevice_readRaw fuel s q :
  reads s = (25 * q)%nat ->
  readRaw (sampleDevice sample) fuel s =
  match fuel with
  | O => None
  | S _ =>
      Some (decode (sample q),
            advance 25 (2 * (24 + basePulses (channelGain s)))
              (readEvents 0 (basePulses (channelGain s)) (sample q)) s)
  end.
Proof.
  intros Hq.
  assert (Hready : readyAfter (sampleDevice sample) (reads s) 0)
    by (rewrite Hq; apply sampleDevice_ready).
  assert (Hbits : presents (sampleDevice sample) (reads s + 1) (sample q))
    by (rewrite Hq; apply sampleDevice_presents).
  destruct fuel as [| fuel].
  - apply (readRaw_shifted_no_fuel _ s 0 (sample q));
      auto using sampleDevice_fast, Nat.le_0_l.
  - apply (readRaw_presents _ (S fuel) s 0 (sample q));
      auto using sampleDevice_fast, Nat.le_0_l, Nat.lt_0_succ.
Qed.

Lemma sampleDevice_readUntilSample fuel s q :
  reads s = (25 * q)%nat ->
  isSentinel (sample q) = false ->
  readUntilSample (sampleDevice sample) fuel s =
  if (fuel <? 2)%nat then None
  else Some (signedData (sample q),
             advance 25 (2 * (24 + basePulses (channelGain s)))
               (readEvents 0 (basePulses (channelGain s)) (sample q)) s).
Proof.
  intros Hq Hs. destruct fuel as [| [| fuel]]; [reflexivity | |];
    cbn [readUntilSample Nat.ltb Nat.leb].
  - rewrite bind_None; [reflexivity |].
    apply (sampleDevice_readRaw 0 s q Hq).
  - step (sampleDevice_readRaw (S fuel) s q Hq).
    unfold decode. rewrite Hs. reflexivity.
Qed.

End SampleDevice.

(** ** The Taring loop *)

Lemma driftSample_range q : 0 <= driftSample q < 2 ^ 24.
Proof. unfold driftSample. destruct (_ =? _)%nat; lia. Qed.

Lemma mod11_succ q i :
  (1 <= q mod 11 -> q mod 11 + i <= 10 -> (q + i) mod 11 = q mod 11 + i)%nat.
Proof.
  intros Hlo Hhi. rewrite (Nat.div_mod_eq q 11) at 1.
  rewrite <- Nat.add_assoc, Nat.add_comm, Nat.mul_comm, Nat.Div0.mod_add.
  apply Nat.mod_small. lia.
Qed.

Section Drifting.

Variable fuel : nat.

Lemma drifting_sample s q :
  reads s = (25 * q)%nat ->
  (2 <= fuel)%nat ->
  exists s',
    readUntilSample driftingDevice fuel s = Some (driftSample q, s') /\
    reads s' = (25 * (q + 1))%nat /\ sameFields s s'.
Proof.
  intros Hq Hfuel. eexists. split; [| split].
  - unfold driftingDevice.
    rewrite (sampleDevice_readUntilSample driftSample driftSample_range fuel s q Hq).
    + destruct (Nat.ltb_spec fuel 2) as [Hlt | _]; [lia |].
      f_equal. f_equal. unfold driftSample.
      destruct (_ =? _)%nat; reflexivity.
    + unfold driftSample. destruct (_ =? _)%nat; reflexivity.
  - cbn [reads advance]. lia.
  - apply sameFields_advance.
Qed.

Lemma drifting_no_fuel s q :
  reads s = (25 * q)%nat ->
  (fuel < 2)%nat ->
  readUntilSample driftingDevice fuel s = None.
Proof.
  intros Hq Hfuel. unfold driftingDevice.
  rewrite (sampleDevice_readUntilSample driftSample driftSample_range fuel s q Hq).
  - destruct (Nat.ltb_spec fuel 2) as [_ | Hge]; [reflexivity | lia].
  - unfold driftSample. destruct (_ =? _)%nat; reflexivity.
Qed.

(** Between two peaks the conversions add nothing to the sum. *)
Lemma drifting_quiet n : forall sum s q,
  (2 <= fuel)%nat ->
  reads s = (25 * q)%nat ->
  n = 0%nat \/ (1 <= q mod 11 /\ q mod 11 + n <= 11)%nat ->
  exists s',
    sumSamples driftingDevice fuel n sum s = Some (sum, s') /\
    reads s' = (25 * (q + n))%nat /\ sameFields s s'.
Proof.
  induction n as [| n IH]; intros sum s q Hfuel Hq Hquiet.
  - exists s. split; [reflexivity |].
    split; [rewrite Nat.add_0_r; exact Hq | apply sameFields_refl].
  - destruct Hquiet as [Hn | [Hlo Hhi]]; [discriminate |].
    destruct (drifting_sample s q Hq Hfuel) as (s1 & Hrun & Hreads & Hsame).
    assert (Hnext : n = 0%nat \/
                    (1 <= (q + 1) mod 11 /\ (q + 1) mod 11 + n <= 11)%nat).
    { destruct n as [| n]; [left; reflexivity | right].
      rewrite mod11_succ by lia. lia. }
    destruct (IH (sum + driftSample q) s1 (q + 1)%nat Hfuel Hreads Hnext)
      as (s2 & Hrest & Hreads2 & Hsame2).
    exists s2. cbn [sumSamples]. step Hrun. rewrite Hrest.
    split; [| split].
    + f_equal. f_equal. unfold driftSample.
      destruct (Nat.eqb_spec (q mod 11) 0); lia.
    + rewrite Hreads2. lia.
    + eapply sameFields_trans; eassumption.
Qed.

(** At a peak, [read()] is 1000 / 35. *)
Lemma drifting_read s q :
  reads s = (25 * q)%nat ->
  (q mod 11 = 0)%nat ->
  offset s = Fin 0 ->
  scale s = Fin 35 ->
  (fuel < 2)%nat /\ read driftingDevice fuel s = None \/
  (2 <= fuel)%nat /\
  exists s',
    read driftingDevice fuel s = Some (Fin (200 # 7), s') /\
    reads s' = (25 * (q + 1))%nat /\
    offset s' = Fin 0 /\ scale s' = Fin 35.
Proof.
  intros Hq Hpeak Ho Hsc.
  unfold read, readAverage, readRawAverage. cbn [Z.ltb Z.compare Z.to_nat].
  change (Pos.to_nat 1) with 1%nat. cbn [sumSamples].
  destruct (Nat.ltb_spec fuel 2) as [Hlt | Hge]; [left | right];
    (split; [assumption |]).
  - rewrite bind_None; [reflexivity |].
    rewrite bind_None; [reflexivity |].
    rewrite bind_None; [reflexivity |].
    apply (drifting_no_fuel s q Hq Hlt).
  - destruct (drifting_sample s q Hq Hge) as (s1 & Hrun & Hreads & Hsame).
    destruct Hsame as (Ho1 & Hs1 & _ & _).
    eexists. split; [| split; [| split]].
    + rewrite !bind_bind. step Hrun. cbv [bind ret].
      cbn [latestReading set_latestReading]. unfold applyNormalisation.
      rewrite Ho1, Hs1, Ho, Hsc. unfold driftSample.
      rewrite Hpeak. reflexivity.
    + exact Hreads.
    + cbn [offset set_latestReading]. congruence.
    + cbn [scale set_latestReading]. congruence.
Qed.

(** After a peak, [tare()] averages ten conversions of 0. *)
Lemma drifting_tare s q :
  (2 <= fuel)%nat ->
  reads s = (25 * q)%nat ->
  (q mod 11 = 1)%nat ->
  exists s',
    tare driftingDevice fuel s = Some (true, s') /\
    reads s' = (25 * (q + 10))%nat /\
    offset s' = Fin 0 /\ scale s' = scale s.
Proof.
  intros Hfuel Hq Hmod.
  destruct (drifting_quiet 10 0 s q Hfuel Hq ltac:(right; lia))
    as (s1 & Hrun & Hreads & Hsame).
  destruct Hsame as (_ & Hs1 & _ & _).
  eexists. split; [| split; [| split]].
  - unfold tare, readRawAverage. cbn [Z.ltb Z.compare Z.to_nat].
    change (Pos.to_nat 10) with 10%nat.
    rewrite bind_bind. step Hrun. reflexivity.
  - exact Hreads.
  - reflexivity.
  - exact Hs1.
Qed.

End Drifting.

(** On the drifting device every reading at a peak is 1000 / 35, and the tare
    that follows brings Offset back to 0: the loop goes on for as long as
    there is fuel. *)
Lemma drifting_taring fuel : forall s q,
  reads s = (25 * q)%nat ->
  (q mod 11 = 0)%nat ->
  offset s = Fin 0 ->
  scale s = Fin 35 ->
  taring driftingDevice fuel s = None.
Proof.
  induction fuel as [| fuel IH]; intros s q Hq Hpeak Ho Hsc; [reflexivity |].
  cbn [taring].
  destruct (drifting_read fuel s q Hq Hpeak Ho Hsc)
    as [[_ Hnone] | (Hfuel & s1 & Hread & Hreads1 & Ho1 & Hs1)].
  - apply bind_None. exact Hnone.
  - step Hread. change (Num.ge (Num.abs (Fin (200 # 7))) (Fin (1 # 2))) with true.
    cbv iota.
    assert (Hmod1 : ((q + 1) mod 11 = 1)%nat).
    { rewrite (Nat.div_mod_eq q 11) at 1. rewrite Hpeak, Nat.add_0_r.
      rewrite Nat.add_comm, Nat.mul_comm, Nat.Div0.mod_add. reflexivity. }
    destruct (drifting_tare fuel s1 (q + 1)%nat Hfuel Hreads1 Hmod1)
      as (s2 & Htare & Hreads2 & Ho2 & Hs2).
    step Htare. apply (IH s2 (q + 1 + 10)%nat Hreads2); [| exact Ho2 | congruence].
    replace (q + 1 + 10)%nat with (q + 1 * 11)%nat by lia.
    rewrite Nat.Div0.mod_add. exact Hpeak.
Qed.

(** The loop only ends on a reading that is not at least 0.5. *)
Lemma taring_exit dev fuel : forall s u s',
  taring dev fuel s = Some (u, s') ->
  Num.ge (Num.abs (latestReading s')) (Fin (1 # 2)) = false.
Proof.
  induction fuel as [| fuel IH]; intros s u s' Hrun; [discriminate |].
  cbn [taring] in Hrun. apply bind_inv in Hrun.
  destruct Hrun as (reading & s1 & Hread & Hrest).
  assert (Hlatest : latestReading s1 = reading).
  { unfold read, readAverage in Hread. apply bind_inv in Hread.
    destruct Hread as (average & s0 & _ & Hset).
    injection Hset as <- <-. reflexivity. }
  destruct (Num.ge (Num.abs reading) (Fin (1 # 2))) eqn:E.
  - apply bind_inv in Hrest. destruct Hrest as (b & s2 & _ & Hloop).
    eapply IH. exact Hloop.
  - injection Hrest as _ <-. rewrite Hlatest. exact E.
Qed.

(** C5 (as amended).  The Taring state of [__begin] calls [read()] first;
    while the absolute value of the reading is at least 0.5 it calls
    [tare()] and reads again, and it ends on the first reading that is not:
    when the first reading is below 0.5, [tare()] is not called at all.  The
    number of rounds has no bound: there is a device on which the loop never
    ends. *)
Theorem begin_taring_loop :
  (forall dev fuel s b s',
     begin dev fuel s = Some (b, s') ->
     b = true /\
     Num.ge (Num.abs (latestReading s')) (Fin (1 # 2)) = false /\
     forall r, latestReading s' = Fin r -> (Qabs r < 1 # 2)%Q) /\
  (forall dev fuel s reading s1,
     read dev fuel s = Some (reading, s1) ->
     taring dev (S fuel) s =
     if Num.ge (Num.abs reading) (Fin (1 # 2))
     then (tare dev fuel ;; taring dev fuel) s1
     else Some (tt, s1)) /\
  (forall fuel, begin driftingDevice fuel (constructed None None) = None).
Proof.
  split; [| split].
  - intros dev fuel s b s' Hrun. unfold begin in Hrun.
    apply bind_inv in Hrun. destruct Hrun as (g & s1 & _ & Hrun).
    apply bind_inv in Hrun. destruct Hrun as (u & s2 & _ & Hrun).
    apply bind_inv in Hrun. destruct Hrun as (u' & s3 & Hloop & Hret).
    injection Hret as <- <-.
    pose proof (taring_exit dev fuel s2 u' s3 Hloop) as Hexit.
    split; [reflexivity |]. split; [exact Hexit |].
    intros r Hr. rewrite Hr in Hexit. cbn [Num.abs Num.ge] in Hexit.
    apply Qnot_le_lt. intros Hle. apply Qle_bool_iff in Hle. congruence.
  - intros dev fuel s reading s1 Hread. cbn [taring]. step Hread.
    destruct (Num.ge _ _); reflexivity.
  - intros fuel. unfold begin.
    unfold getChannelGain at 1, bind at 1.
    cbn [channelGain constructed ChannelGain_eqb negb].
    unfold ret at 1, bind at 1.
    apply bind_None.
    apply (drifting_taring fuel (constructed None None) 0); reflexivity.
Qed.

Lemma begin_taring_loop_witness :
  exists s',
    begin zeroDevice 3 (constructed None None) = Some (true, s') /\
    latestReading s' = Fin 0 /\ reads s' = 25%nat /\ offset s' = Fin 0.
Proof.
  destruct (begin zeroDevice 3 (constructed None None))
    as [[b s'] |] eqn:Hrun; [| vm_compute in Hrun; discriminate].
  destruct (proj1 begin_taring_loop zeroDevice 3%nat (constructed None None) b s' Hrun)
    as (-> & _ & _).
  exists s'. split; [reflexivity |].
  vm_compute in Hrun. injection Hrun as <-. repeat split.
Defined.

(** C5 as stated fails: on a device whose conversions all read 0 the first
    [read()] is already 0, so [__begin] returns after one raw read (25 reads
    of the data pin) and never calls [tare()]; Taring that calls [tare()]
    before [read()] would make eleven raw reads. *)
Lemma begin_reads_before_tare :
  let s0 := constructed None None in
  begin zeroDevice 3 s0 <> begin_tare_first zeroDevice 3 s0 /\
  (exists s', begin zeroDevice 3 s0 = Some (true, s') /\ reads s' = 25%nat) /\
  (exists s', begin_tare_first zeroDevice 3 s0 = Some (true, s') /\
              reads s' = 275%nat).
Proof.
  intros s0. split; [| split].
  - vm_compute. discriminate.
  - eexists. split; [vm_compute; reflexivity | reflexivity].
  - eexists. split; [vm_compute; reflexivity | reflexivity].
Qed.

(** * Further properties of the driver *)

(** ** Two's complement, both ways *)

Lemma encode_range v :
  - (2 ^ 23 - 1) <= v <= 2 ^ 23 - 2 ->
  0 <= v mod 2 ^ 24 < 2 ^ 24 /\
  v mod 2 ^ 24 = (if v <? 0 then v + 2 ^ 24 else v).
Proof.
  intros Hv. split; [apply Z.mod_pos_bound; lia |].
  destruct (Z.ltb_spec v 0) as [Hneg | Hpos].
  - rewrite <- (Z.mod_add v 1 (2 ^ 24)) by lia.
    apply Z.mod_small. lia.
  - apply Z.mod_small. lia.
Qed.

Lemma decode_encode v :
  - (2 ^ 23 - 1) <= v <= 2 ^ 23 - 2 -> decode (v mod 2 ^ 24) = RawNumber v.
Proof.
  intros Hv. destruct (encode_range v Hv) as [HP Hform].
  unfold decode.
  assert (Hs : isSentinel (v mod 2 ^ 24) = false).
  { destruct (isSentinel (v mod 2 ^ 24)) eqn:E; [| reflexivity].
    apply isSentinel_spec in E. rewrite Hform in E.
    destruct (v <? 0) eqn:Hneg; [apply Z.ltb_lt in Hneg | apply Z.ltb_ge in Hneg];
      lia. }
  rewrite Hs. f_equal.
  destruct (signedData_spec _ HP) as [_ ->]. rewrite Hform.
  destruct (Z.ltb_spec v 0); destruct (Z.leb_spec (2 ^ 23) (v + 2 ^ 24));
    destruct (Z.leb_spec (2 ^ 23) v); lia.
Qed.

Lemma decode_number_inv P v :
  0 <= P < 2 ^ 24 -> decode P = RawNumber v -> P = v mod 2 ^ 24.
Proof.
  intros HP Hdec. unfold decode in Hdec.
  destruct (isSentinel P); [discriminate |]. injection Hdec as <-.
  destruct (signedData_spec P HP) as [_ ->].
  destruct (Z.leb_spec (2 ^ 23) P).
  - rewrite <- (Z.mod_add (P - 2 ^ 24) 1 (2 ^ 24)) by lia.
    replace (P - 2 ^ 24 + 1 * 2 ^ 24) with P by lia.
    symmetry. apply Z.mod_small. lia.
  - symmetry. apply Z.mod_small. lia.
Qed.

(** X1.  Reading is the inverse of the device's encoding: when the device
    presents the 24-bit two's complement pattern of a value [v] between
    [-(2^23 - 1)] and [2^23 - 2], the raw read returns [v]; and a pattern
    that decodes to [v] is that encoding, so no two patterns give the same
    sample. *)
Theorem readRaw_round_trip dev fuel s k v :
  - (2 ^ 23 - 1) <= v <= 2 ^ 23 - 2 ->
  (k <= maxAttempts)%nat ->
  (0 < fuel)%nat ->
  readyAfter dev (reads s) k ->
  presents dev (reads s + S k) (v mod 2 ^ 24) ->
  fastPulses dev (ticks s) (24 + basePulses (channelGain s)) ->
  readRaw dev fuel s =
    Some (RawNumber v,
          advance (S k + 24) (2 * (24 + basePulses (channelGain s)))
            (readEvents k (basePulses (channelGain s)) (v mod 2 ^ 24)) s) /\
  forall P, 0 <= P < 2 ^ 24 -> decode P = RawNumber v -> P = v mod 2 ^ 24.
Proof.
  intros Hv Hk Hfuel Hready Hbits Hfast. split.
  - rewrite <- (decode_encode v Hv).
    apply readRaw_presents; try assumption.
    apply (encode_range v Hv).
  - intros P HP Hdec. apply decode_number_inv; assumption.
Qed.

Lemma readRaw_round_trip_witness :
  readRaw (sampleDevice (fun _ => (-5) mod 2 ^ 24)) 1 (constructed None None) =
  Some (RawNumber (-5),
        advance 25 50 (readEvents 0 1 ((-5) mod 2 ^ 24)) (constructed None None)).
Proof.
  refine (proj1 (readRaw_round_trip
                   (sampleDevice (fun _ => (-5) mod 2 ^ 24)) 1
                   (constructed None None) 0 (-5) _ _ _ _ _ _)).
  - lia.
  - apply Nat.le_0_l.
  - apply Nat.lt_0_1.
  - split; [intros j Hj; inversion Hj | reflexivity].
  - intros i Hi.
    do 24 (destruct i as [| i]; [reflexivity |]).
    exfalso. lia.
  - intros j Hj. simpl microtime. lia.
Defined.

(** ** The mean of the samples *)




Lemma sumZ_between lo hi l :
  Forall (fun v => lo <= v <= hi) l ->
  lo * Z.of_nat (length l) <= sumZ l <= hi * Z.of_nat (length l).
Proof.
  induction 1 as [| v l Hv _ IH]; unfold sumZ in *; cbn [fold_right length].
  - lia.
  - lia.
Qed.

(** X2.  For a count between 1 and 2^29, [__readRawAverage] returns exactly
    when that many samples have been acquired.  Its result is a number that
    lies between the smallest and the largest of them, and it is their mean
    [sum / count] whenever that quotient is a binary64 number, so that the
    division does not round.  A count below zero behaves as the count one. *)
Theorem readRawAverage_samples_mean dev fuel numberOfTimes s s' :
  1 <= numberOfTimes <= 2 ^ 29 ->
  (forall r,
     readRawAverage dev fuel numberOfTimes s = Some (r, s') ->
     exists l q,
       acquires dev fuel s l s' /\
       length l = Z.to_nat numberOfTimes /\
       r = Fin q /\
       (binary64 (inject_Z (sumZ l) / inject_Z numberOfTimes) ->
        (q == inject_Z (sumZ l) / inject_Z numberOfTimes)%Q) /\
       forall lo hi,
         Forall (fun v => lo <= v <= hi) l ->
         (inject_Z lo <= q <= inject_Z hi)%Q) /\
  (forall l,
     acquires dev fuel s l s' ->
     length l = Z.to_nat numberOfTimes ->
     exists r, readRawAverage dev fuel numberOfTimes s = Some (r, s')) /\
  forall negative,
    negative < 0 ->
    readRawAverage dev fuel negative s = readRawAverage dev fuel 1 s.
Proof.
  intros Hn. split; [| split].
  - intros r Hrun.
    destruct (readRawAverage_acquires dev fuel numberOfTimes s r s'
                ltac:(lia) Hrun) as (l & Hacq & Hlen & ->).
    exists l, (Qred (inject_Z (sumZ l) / inject_Z numberOfTimes)).
    split; [exact Hacq |]. split; [exact Hlen |]. split; [reflexivity |].
    split; [intros _; apply Qred_correct |].
    intros lo hi Hall.
    pose proof (sumZ_between lo hi l Hall) as Hsum.
    rewrite Hlen, Z2Nat.id in Hsum by lia.
    assert (Hn0 : (0 < inject_Z numberOfTimes)%Q)
      by (change (inject_Z 0 < inject_Z numberOfTimes)%Q;
          rewrite <- Zlt_Qlt; lia).
    rewrite !Qred_correct. split.
    + apply Qle_shift_div_l; [exact Hn0 |].
      rewrite <- inject_Z_mult, <- Zle_Qle. lia.
    + apply Qle_shift_div_r; [exact Hn0 |].
      rewrite <- inject_Z_mult, <- Zle_Qle. lia.
  - intros l Hacq Hlen. eexists.
    apply readRawAverage_mean; [lia | exact Hlen | exact Hacq].
  - intros negative Hneg. apply readRawAverage_negative. exact Hneg.
Qed.

Lemma readRawAverage_samples_mean_witness :
  exists q s',
    readRawAverage (sampleDevice (fun q => 10 + Z.of_nat q)) 2 4
      (constructed None None) = Some (Fin q, s') /\
    (q == 23 # 2)%Q /\ (inject_Z 10 <= q <= inject_Z 13)%Q.
Proof.
  assert (Hacq : exists s1,
            acquires (sampleDevice (fun q => 10 + Z.of_nat q)) 2
              (constructed None None) [10; 11; 12; 13] s1).
  { eexists. repeat (eapply acquires_cons; [vm_compute; reflexivity |]).
    apply acquires_nil. }
  destruct Hacq as [s1 Hacq].
  destruct (readRawAverage_samples_mean
              (sampleDevice (fun q => 10 + Z.of_nat q)) 2 4
              (constructed None None) s1 ltac:(lia))
    as (Hfwd & Hback & _).
  destruct (Hback [10; 11; 12; 13] Hacq eq_refl) as [r Hrun].
  destruct (Hfwd r Hrun) as (l & q & _ & _ & -> & _ & _).
  exists q, s1. split; [exact Hrun |].
  vm_compute in Hrun. injection Hrun as <-.
  split; [reflexivity | split; discriminate].
Defined.



(** ** A device that never becomes ready *)

Section HungDevice.

Variable dev : Device.
Hypothesis never_ready : forall n, dataLevel dev n = true.

Lemma hung_readUntilSample fuel : forall s,
  readUntilSample dev fuel s = None.
Proof.
  induction fuel as [| fuel IH]; intros s; [reflexivity |].
  cbn [readUntilSample].
  step (readRaw_gives_up dev fuel s (fun j _ => never_ready (reads s + j))).
  apply IH.
Qed.

Lemma hung_readRawAverage fuel numberOfTimes s :
  numberOfTimes <> 0 ->
  readRawAverage dev fuel numberOfTimes s = None.
Proof.
  intros Hn. unfold readRawAverage. apply bind_None.
  destruct (Z.to_nat (if numberOfTimes <? 0 then 1 else numberOfTimes))
    as [| n] eqn:E.
  - destruct (Z.ltb_spec numberOfTimes 0); lia.
  - cbn [sumSamples]. apply bind_None. apply hung_readUntilSample.
Qed.

Lemma hung_waitReady fuel : forall s, waitReady dev fuel s = None.
Proof.
  induction fuel as [| fuel IH]; intros s; [reflexivity |].
  cbn [waitReady]. step (isReady_run dev s). rewrite never_ready.
  cbn [negb]. step (msleep_run 1 (advance 1 0 [] s)). apply IH.
Qed.

Lemma hung_taring fuel s : taring dev fuel s = None.
Proof.
  destruct fuel as [| fuel]; [reflexivity |].
  cbn [taring]. apply bind_None. unfold read, readAverage.
  apply bind_None. apply hung_readRawAverage. discriminate.
Qed.

End HungDevice.

(** X4.  On a device whose data pin never goes low every single raw read
    gives up and returns [false], but nothing above it ever returns: the
    retry loop of [__readRawAverage] goes on for any amount of fuel, and so
    do [readAverage] and [read], [tare], [calibrateScale], [__begin], and
    [__setChannelGain] called with [isInit], which waits for readiness
    without a bound.  Only a count of zero returns, with NaN. *)
Theorem hung_device_blocks dev :
  (forall n, dataLevel dev n = true) ->
  forall fuel s,
    (exists s', readRaw dev fuel s = Some (RawFalse, s')) /\
    (forall n, n <> 0 -> readRawAverage dev fuel n s = None) /\
    (forall n, n <> 0 -> readAverage dev fuel n s = None) /\
    read dev fuel s = None /\
    tare dev fuel s = None /\
    (forall knownWeight, calibrateScale dev fuel knownWeight s = None) /\
    begin dev fuel s = None /\
    (forall g, setChannelGain dev fuel g true s = None) /\
    readRawAverage dev fuel 0 s = Some (NaN, s).
Proof.
  intros Hhung fuel s.
  refine (conj _ (conj _ (conj _ (conj _ (conj _ (conj _ (conj _ (conj _ _)))))))).
  - eexists. apply readRaw_gives_up. intros j _. apply Hhung.
  - intros n Hn. apply hung_readRawAverage; assumption.
  - intros n Hn. unfold readAverage. apply bind_None.
    apply hung_readRawAverage; assumption.
  - unfold read, readAverage. apply bind_None.
    apply hung_readRawAverage; [assumption | discriminate].
  - unfold tare. apply bind_None.
    apply hung_readRawAverage; [assumption | discriminate].
  - intros knownWeight. unfold calibrateScale. apply bind_None.
    apply hung_readRawAverage; [assumption | discriminate].
  - unfold begin.
    step (eq_refl : getChannelGain s = Some (channelGain s, s)).
    destruct (negb (ChannelGain_eqb (channelGain s) CHANNEL_A_GAIN_128)).
    + rewrite bind_bind.
      destruct (setChannelGain dev fuel (channelGain s) false s)
        as [[b s1] |] eqn:E.
      * step E. step (eq_refl : ret tt s1 = Some (tt, s1)).
        apply bind_None. apply hung_taring. exact Hhung.
      * apply bind_None. exact E.
    + step (eq_refl : ret tt s = Some (tt, s)).
      apply bind_None. apply hung_taring. exact Hhung.
  - intros g. destruct fuel as [| fuel]; [reflexivity |].
    cbn [setChannelGain]. apply bind_None. apply hung_waitReady. exact Hhung.
  - reflexivity.
Qed.

Lemma hung_device_blocks_witness :
  read deadDevice 7 (constructed None None) = None /\
  tare deadDevice 7 (constructed None None) = None.
Proof.
  destruct (hung_device_blocks deadDevice (fun _ => eq_refl) 7
              (constructed None None))
    as (_ & _ & _ & Hread & Htare & _).
  split; [exact Hread | exact Htare].
Defined.

(** ** Why a raw read fails *)

Lemma extends_refl s : extends s s.
Proof. exists []. rewrite app_nil_r. reflexivity. Qed.

Lemma extends_trans s1 s2 s3 : extends s1 s2 -> extends s2 s3 -> extends s1 s3.
Proof.
  intros [es1 H1] [es2 H2]. exists (es1 ++ es2).
  rewrite H2, H1, app_assoc. reflexivity.
Qed.

Lemma extends_emit e s : extends s (emit e s).
Proof. exists [e]. reflexivity. Qed.

Lemma extends_same_trace s s' : trace s' = trace s -> extends s s'.
Proof. intros H. exists []. rewrite app_nil_r. exact H. Qed.

Lemma Preserves_extends {A} (m : M A) :
  (forall R : HX711 -> HX711 -> Prop,
     (forall s, R s s) ->
     (forall s1 s2 s3, R s1 s2 -> R s2 s3 -> R s1 s3) ->
     (forall e s, R s (emit e s)) ->
     (forall s, R s (next_read s)) ->
     (forall s, R s (next_tick s)) ->
     Preserves R m) ->
  Preserves extends m.
Proof.
  intros H. apply H.
  - apply extends_refl.
  - apply extends_trans.
  - apply extends_emit.
  - intros s. apply extends_same_trace. reflexivity.
  - intros s. apply extends_same_trace. reflexivity.
Qed.

(** The readiness loop gives up only after the data pin has read high at
    every one of its polls. *)
Lemma awaitReady_false_inv dev left : forall s s',
  awaitReady dev left s = Some (false, s') ->
  forall j, (j <= left)%nat -> dataLevel dev (reads s + j) = true.
Proof.
  induction left as [| left IH]; intros s s' Hrun j Hj;
    cbn [awaitReady] in Hrun;
    rewrite (bind_Some _ _ _ _ _ (isReady_run dev s)) in Hrun;
    destruct (dataLevel dev (reads s)) eqn:E; cbn [negb] in Hrun;
    try discriminate;
    rewrite (bind_Some _ _ _ _ _ (msleep_run 1 _)) in Hrun.
  - replace j with 0%nat by lia. rewrite Nat.add_0_r. exact E.
  - destruct j as [| j]; [rewrite Nat.add_0_r; exact E |].
    specialize (IH _ _ Hrun j ltac:(lia)).
    cbn [reads advance] in IH.
    replace (reads s + S j)%nat with (0 + (1 + reads s) + j)%nat by lia.
    exact IH.
Qed.

(** The loop over the bits stops early only on a pulse measured at 60
    microseconds or more, and the log line is the last thing it does. *)
Lemma shiftIn_None_inv dev n : forall d s s',
  shiftIn dev n d s = Some (None, s') ->
  exists es timeElapsed,
    trace s' = trace s ++ es ++ [LogSlowPulse timeElapsed] /\
    60 <= timeElapsed.
Proof.
  induction n as [| n IH]; intros d s s' Hrun; [discriminate |].
  cbn [shiftIn] in Hrun.
  rewrite (bind_Some _ _ _ _ _ (timedPulse_run dev s)) in Hrun.
  destruct (Z.geb_spec (microtime dev (S (ticks s)) - microtime dev (ticks s)) 60)
    as [Hslow | Hfast].
  - rewrite (bind_Some _ _ _ _ _ (log_run _ _)) in Hrun.
    injection Hrun as <-.
    exists (pulseEvents 1), (microtime dev (S (ticks s)) - microtime dev (ticks s)).
    split; [| exact Hslow]. cbn [trace advance]. rewrite <- app_assoc.
    reflexivity.
  - rewrite (bind_Some _ _ _ _ _ (digitalRead_run dev _)) in Hrun.
    apply IH in Hrun. destruct Hrun as (es & e & Htrace & He).
    exists (pulseEvents 1 ++ es), e. split; [| exact He].
    rewrite Htrace. cbn [trace advance]. rewrite app_nil_r, <- !app_assoc.
    reflexivity.
Qed.

(** X5.  A raw read returns [false] for one of three reasons only, each
    visible in what it did: the data pin read high at all 10000 polls, and
    then nothing but the sleeps happened; or a data pulse was measured at 60
    microseconds or more, and the log line about it is the last event; or the
    pattern shifted in was 0x7FFFFF or 0x800000, and the log line about it is
    the last event. *)
Theorem readRaw_failure_kinds dev fuel s s' :
  readRaw dev fuel s = Some (RawFalse, s') ->
  ((forall j, (j <= maxAttempts)%nat -> dataLevel dev (reads s + j) = true) /\
   s' = advance (S maxAttempts) 0
          (ClockWrite false :: repeat (Sleep 1) (S maxAttempts)) s) \/
  (exists es timeElapsed,
     trace s' = trace s ++ es ++ [LogSlowPulse timeElapsed] /\
     60 <= timeElapsed) \/
  (exists es data_in,
     trace s' = trace s ++ es ++ [LogInvalidData data_in] /\
     (data_in = 0x7fffff \/ data_in = 0x800000)).
Proof.
  intros Hrun.
  destruct (awaitReady dev maxAttempts (advance 0 0 [ClockWrite false] s))
    as [[[|] s1] |] eqn:Hwait.
  - right.
    assert (Hext1 : extends (advance 0 0 [ClockWrite false] s) s1).
    { eapply (Preserves_extends (awaitReady dev maxAttempts)); [| exact Hwait].
      intros. apply Preserves_awaitReady; assumption. }
    destruct Hext1 as [es1 Hes1]. cbn [trace advance] in Hes1.
    unfold readRaw in Hrun.
    rewrite (bind_Some _ _ _ _ _ (clockWrite_run false s)) in Hrun.
    rewrite (bind_Some _ _ _ _ _ Hwait) in Hrun. cbn [negb] in Hrun.
    apply bind_inv in Hrun. destruct Hrun as (shifted & s2 & Hshift & Hrun).
    destruct shifted as [data_in |].
    + right.
      assert (Hext2 : extends s1 s2).
      { eapply (Preserves_extends (shiftIn dev 24 0)); [| exact Hshift].
        intros. apply Preserves_shiftIn; assumption. }
      destruct Hext2 as [es2 Hes2].
      apply bind_inv in Hrun. destruct Hrun as (g & s3 & Hg & Hrun).
      injection Hg as <- <-.
      apply bind_inv in Hrun. destruct Hrun as (b & s4 & Hgain & Hrun).
      assert (Hext3 : extends s2 s4).
      { eapply (Preserves_extends (setChannelGain dev fuel _ false));
          [| exact Hgain].
        intros. apply Preserves_setChannelGain; assumption. }
      destruct Hext3 as [es3 Hes3].
      rewrite (bind_Some _ _ _ _ _ (msleep_run 1 s4)) in Hrun.
      unfold decode in Hrun. destruct (isSentinel data_in) eqn:Hs.
      * rewrite (bind_Some _ _ _ _ _ (log_run _ _)) in Hrun.
        injection Hrun as <-.
        exists ([ClockWrite false] ++ es1 ++ es2 ++ es3 ++ [Sleep 1]), data_in.
        split; [| apply isSentinel_spec; exact Hs].
        cbn [trace advance]. rewrite Hes3, Hes2, Hes1.
        rewrite <- !app_assoc. reflexivity.
      * apply bind_inv in Hrun. destruct Hrun as (u & s5 & _ & Hret).
        discriminate.
    + left. injection Hrun as <-.
      apply shiftIn_None_inv in Hshift.
      destruct Hshift as (es & e & Htrace & He).
      exists ([ClockWrite false] ++ es1 ++ es), e. split; [| exact He].
      rewrite Htrace, Hes1. rewrite <- !app_assoc. reflexivity.
  - left.
    pose proof (awaitReady_false_inv dev maxAttempts _ _ Hwait) as Hhigh.
    split; [exact Hhigh |].
    rewrite (readRaw_gives_up dev fuel s Hhigh) in Hrun.
    injection Hrun as <-. reflexivity.
  - unfold readRaw in Hrun.
    rewrite (bind_Some _ _ _ _ _ (clockWrite_run false s)) in Hrun.
    rewrite (bind_None _ _ _ Hwait) in Hrun. discriminate.
Qed.

Lemma readRaw_failure_kinds_witness :
  exists es data_in,
    readEvents 0 1 0x800000 = es ++ [LogInvalidData data_in] /\
    (data_in = 0x7fffff \/ data_in = 0x800000).
Proof.
  assert (Hrun :
    readRaw (sampleDevice (fun _ => 0x800000)) 1 (constructed None None) =
    Some (RawFalse,
          advance 25 50 (readEvents 0 1 0x800000) (constructed None None)))
    by (vm_compute; reflexivity).
  destruct (readRaw_failure_kinds _ _ _ _ Hrun)
    as [[Hhigh _] | [(es & e & Htrace & _) | (es & P & Htrace & HP)]].
  - exfalso. specialize (Hhigh 0%nat (Nat.le_0_l _)). discriminate.
  - exfalso. cbn [trace advance constructed app] in Htrace.
    apply (f_equal (@rev Event)) in Htrace. rewrite rev_app_distr in Htrace.
    vm_compute in Htrace. discriminate.
  - exists es, P. split; [| exact HP]. exact Htrace.
Defined.

(** ** The gain and the cached reading *)

(** X6.  No operation ever changes the configured gain.  The cached
    [latestReading] is written by [readAverage] (and so by [read] and
    [__begin]) only, which leave in it the value they return; [tare] and
    [calibrateScale] sample the device without touching it. *)
Theorem gain_latestReading_frame dev fuel :
  (forall g isInit, Preserves keepsGain (setChannelGain dev fuel g isInit)) /\
  Preserves keepsGain (readRaw dev fuel) /\
  (forall n, Preserves keepsGain (readAverage dev fuel n)) /\
  Preserves keepsGain (tare dev fuel) /\
  (forall knownWeight,
     Preserves keepsGain (calibrateScale dev fuel knownWeight)) /\
  Preserves keepsGain (begin dev fuel) /\
  Preserves keepsLatestReading (readRaw dev fuel) /\
  (forall n, Preserves keepsLatestReading (readRawAverage dev fuel n)) /\
  Preserves keepsLatestReading (tare dev fuel) /\
  (forall knownWeight,
     Preserves keepsLatestReading (calibrateScale dev fuel knownWeight)) /\
  (forall n s r s',
     readAverage dev fuel n s = Some (r, s') -> latestReading s' = r).
Proof.
  assert (Hg : forall A (m : M A),
            (forall R : HX711 -> HX711 -> Prop,
               (forall s, R s s) ->
               (forall s1 s2 s3, R s1 s2 -> R s2 s3 -> R s1 s3) ->
               (forall e s, R s (emit e s)) ->
               (forall s, R s (next_read s)) ->
               (forall s, R s (next_tick s)) ->
               (forall v s, R s (set_latestReading v s)) ->
               (forall v s, R s (set_offset v s)) ->
               (forall v s, R s (set_scale v s)) ->
               Preserves R m) ->
            Preserves keepsGain m).
  { intros A m H. apply H; unfold keepsGain; intros; try reflexivity.
    congruence. }
  assert (Hl : forall A (m : M A),
            (forall R : HX711 -> HX711 -> Prop,
               (forall s, R s s) ->
               (forall s1 s2 s3, R s1 s2 -> R s2 s3 -> R s1 s3) ->
               (forall e s, R s (emit e s)) ->
               (forall s, R s (next_read s)) ->
               (forall s, R s (next_tick s)) ->
               (forall v s, R s (set_offset v s)) ->
               (forall v s, R s (set_scale v s)) ->
               Preserves R m) ->
            Preserves keepsLatestReading m).
  { intros A m H. apply H; unfold keepsLatestReading; intros; try reflexivity.
    congruence. }
  refine (conj _ (conj _ (conj _ (conj _ (conj _ (conj _ (conj _
            (conj _ (conj _ (conj _ _)))))))))).
  - intros g isInit. apply Hg. intros. apply Preserves_setChannelGain; auto.
  - apply Hg. intros. apply Preserves_readRaw; auto.
  - intros n. apply Hg. intros. apply Preserves_readAverage; auto.
  - apply Hg. intros. apply Preserves_tare; auto.
  - intros knownWeight. apply Hg. intros. apply Preserves_calibrateScale; auto.
  - apply Hg. intros. apply Preserves_begin; auto.
  - apply Hl. intros. apply Preserves_readRaw; auto.
  - intros n. apply Hl. intros. apply Preserves_readRawAverage; auto.
  - apply Hl. intros. apply Preserves_tare; auto.
  - intros knownWeight. apply Hl. intros. apply Preserves_calibrateScale; auto.
  - intros n s r s' Hrun. unfold readAverage in Hrun.
    apply bind_inv in Hrun. destruct Hrun as (average & s1 & _ & Hset).
    injection Hset as <- <-. reflexivity.
Qed.

Lemma gain_latestReading_frame_witness :
  exists s',
    tare (sampleDevice (fun _ => 1000)) 2
      (constructed None (Some CHANNEL_B_GAIN_32)) = Some (true, s') /\
    latestReading s' = Fin (-1337) /\ channelGain s' = CHANNEL_B_GAIN_32.
Proof.
  destruct (tare (sampleDevice (fun _ => 1000)) 2
              (constructed None (Some CHANNEL_B_GAIN_32)))
    as [[b s'] |] eqn:Hrun; [| vm_compute in Hrun; discriminate].
  pose proof (gain_latestReading_frame (sampleDevice (fun _ => 1000)) 2)
    as (_ & _ & _ & Hgain & _ & _ & _ & _ & Hlatest & _).
  exists s'. split; [| split].
  - vm_compute in Hrun. injection Hrun as <- _. reflexivity.
  - exact (Hlatest _ _ _ Hrun).
  - exact (Hgain _ _ _ Hrun).
Defined.

(** ** Calibration against no weight *)

(** X7.  [calibrateScale] does not check its argument: with a known weight
    of 0 the new Scale is NaN when the raw average plus Offset is zero and
    an infinity otherwise, and from then on [applyNormalisation] of any
    number is NaN in the first case and 0 in the second. *)
Theorem calibrateScale_zero_weight dev fuel s (o : Q) average s1 :
  offset s = Fin o ->
  readRawAverage dev fuel 5 s = Some (average, s1) ->
  exists (R : Q) newScale,
    average = Fin R /\
    calibrateScale dev fuel (Fin 0) s = Some (newScale, set_scale newScale s1) /\
    ((R + o == 0)%Q /\ newScale = NaN \/
     ~ (R + o == 0)%Q /\ (newScale = PInf \/ newScale = NInf)) /\
    forall raw : Q,
      applyNormalisation (Fin raw) (set_scale newScale s1) =
      match newScale with NaN => NaN | _ => Fin 0 end.
Proof.
  intros Ho Hrun.
  pose proof (readRawAverage_sameFields dev fuel 5 _ _ _ Hrun) as (Hoff & _).
  rewrite Ho in Hoff.
  destruct (readRawAverage_acquires dev fuel 5 s average s1 ltac:(lia) Hrun)
    as (l & _ & _ & ->).
  set (R := Qred (inject_Z (sumZ l) / inject_Z 5)) in *.
  exists R, (Num.div (Num.add (Fin R) (Fin o)) (Fin 0)).
  split; [reflexivity |]. split.
  - unfold calibrateScale. step Hrun. cbn [scale set_scale].
    rewrite Hoff. reflexivity.
  - unfold applyNormalisation. cbn [offset scale set_scale]. rewrite Hoff.
    cbn [Num.add Num.div]. change (Num.is_zero 0) with true. cbv iota.
    destruct (Num.is_zero (Qred (R + o))) eqn:Hz.
    + split.
      * left. split; [| reflexivity].
        unfold Num.is_zero in Hz. apply Qeq_bool_iff in Hz.
        rewrite Qred_correct in Hz. exact Hz.
      * intros raw. reflexivity.
    + apply is_zero_false in Hz. rewrite Qred_correct in Hz. split.
      * right. split; [exact Hz |].
        destruct (Num.is_pos (Qred (R + o))); [left | right]; reflexivity.
      * intros raw.
        destruct (Num.is_pos (Qred (R + o))); reflexivity.
Qed.

Lemma calibrateScale_zero_weight_witness :
  exists s',
    calibrateScale (sampleDevice (fun _ => 1000)) 2 (Fin 0)
      (constructed None None) = Some (PInf, s') /\
    applyNormalisation (Fin 1000) s' = Fin 0.
Proof.
  destruct (readRawAverage (sampleDevice (fun _ => 1000)) 2 5
              (constructed None None)) as [[average s1] |] eqn:Hrun;
    [| vm_compute in Hrun; discriminate].
  destruct (calibrateScale_zero_weight
              (sampleDevice (fun _ => 1000)) 2 (constructed None None)
              0 average s1 eq_refl Hrun)
    as (R & newScale & HR & Hcal & Hkind & Hnorm).
  assert (Hnew : newScale = PInf).
  { vm_compute in Hrun. injection Hrun as <- <-.
    vm_compute in Hcal. injection Hcal as <-. reflexivity. }
  subst newScale. exists (set_scale PInf s1).
  split; [exact Hcal | exact (Hnorm 1000%Q)].
Defined.

(** ** Recovery from a slow configuration pulse *)

(** X8.  When the configuration pulse number [i] of [__setChannelGain],
    called without [isInit], is measured at 60 microseconds or more, the
    procedure logs it and starts over with [isInit]: it polls until the
    device reads ready (sleeping one millisecond after each of [k] failed
    polls) and then sends the pulses of the gain plus 24.  With fast pulses
    from there on it returns [true]; the pulses sent before the slow one are
    not counted again. *)
Theorem setChannelGain_recovers dev fuel g i k s :
  (i < basePulses g)%nat ->
  fastPulses dev (ticks s) i ->
  60 <= microtime dev (S (ticks s + 2 * i)) - microtime dev (ticks s + 2 * i) ->
  readyAfter dev (reads s) k ->
  fastPulses dev (ticks s + 2 * S i) (basePulses g + 24) ->
  (S (S k) < fuel)%nat ->
  setChannelGain dev fuel g false s =
  Some (true,
        advance (S k) (2 * (S i + (basePulses g + 24)))
          (pulseEvents (S i) ++
           [LogSlowPulse (microtime dev (S (ticks s + 2 * i))
                          - microtime dev (ticks s + 2 * i))] ++
           repeat (Sleep 1) k ++ pulseEvents (basePulses g + 24)) s).
Proof.
  intros Hi Hfast Hslow Hready Hrest Hfuel.
  destruct fuel as [| fuel]; [lia |].
  rewrite (setChannelGain_resyncs dev fuel g i s Hi Hfast Hslow).
  rewrite setChannelGain_init with (k := k).
  - f_equal. f_equal. rewrite advance_advance.
    apply advance_ext; [lia | lia |]. rewrite <- !app_assoc. reflexivity.
  - lia.
  - exact Hready.
  - cbn [ticks advance].
    replace (2 * S i + ticks s)%nat with (ticks s + 2 * S i)%nat by lia.
    exact Hrest.
Qed.

Lemma setChannelGain_recovers_witness :
  setChannelGain slowFirstPulse 3 CHANNEL_B_GAIN_32 false (constructed None None) =
  Some (true,
        advance 1 54
          (pulseEvents 1 ++ [LogSlowPulse 60] ++ pulseEvents 26)
          (constructed None None)).
Proof.
  refine (setChannelGain_recovers slowFirstPulse 3 CHANNEL_B_GAIN_32 0 0
            (constructed None None) _ _ _ _ _ _).
  - repeat constructor.
  - intros j Hj. inversion Hj.
  - simpl. lia.
  - split; [intros j Hj; inversion Hj | reflexivity].
  - intros j Hj. cbn [ticks constructed microtime slowFirstPulse Nat.add Nat.mul].
    lia.
  - repeat constructor.
Defined.

(** ** Configuration at start-up *)

Lemma begin_plain dev fuel s :
  (0 < fuel)%nat ->
  fastPulses dev (ticks s) (basePulses (channelGain s)) ->
  begin dev fuel s =
  (if ChannelGain_eqb (channelGain s) CHANNEL_A_GAIN_128
   then (taring dev fuel ;; ret true) s
   else (taring dev fuel ;; ret true)
          (advance 0 (2 * basePulses (channelGain s))
             (pulseEvents (basePulses (channelGain s))) s)).
Proof.
  intros Hfuel Hfast. unfold begin.
  step (eq_refl : getChannelGain s = Some (channelGain s, s)).
  destruct (ChannelGain_eqb (channelGain s) CHANNEL_A_GAIN_128);
    cbn [negb].
  - step (eq_refl : ret tt s = Some (tt, s)). reflexivity.
  - rewrite bind_bind.
    step (setChannelGain_plain dev fuel (channelGain s) s Hfuel Hfast).
    match goal with
    | |- bind (ret tt) _ ?st = _ =>
        step (eq_refl : ret tt st = Some (tt, st))
    end.
    reflexivity.
Qed.

(** X9.  [__begin] passes no [isInit] to [__setChannelGain]: for a gain
    other than channel A at 128, and with fast pulses, all that precedes the
    Taring loop is the 2 or 3 pulses of the gain, without a read of the data
    pin and without the 24 extra pulses; for the default gain the Taring loop
    starts at once. *)
Theorem begin_configures_gain dev fuel s :
  (0 < fuel)%nat ->
  fastPulses dev (ticks s) (basePulses (channelGain s)) ->
  begin dev fuel s =
  (if ChannelGain_eqb (channelGain s) CHANNEL_A_GAIN_128
   then (taring dev fuel ;; ret true) s
   else (taring dev fuel ;; ret true)
          (advance 0 (2 * basePulses (channelGain s))
             (pulseEvents (basePulses (channelGain s))) s)) /\
  (channelGain s <> CHANNEL_A_GAIN_128 ->
   (2 <= basePulses (channelGain s) <= 3)%nat).
Proof.
  intros Hfuel Hfast. split.
  - apply begin_plain; assumption.
  - intros Hg. destruct (channelGain s); [contradiction | |]; simpl; lia.
Qed.

Lemma begin_configures_gain_witness :
  begin zeroDevice 3 (constructed None (Some CHANNEL_A_GAIN_64)) =
  (taring zeroDevice 3 ;; ret true)
    (advance 0 6 (pulseEvents 3) (constructed None (Some CHANNEL_A_GAIN_64))).
Proof.
  assert (Hfuel : (0 < 3)%nat) by (repeat constructor).
  assert (Hfast : fastPulses zeroDevice
                    (ticks (constructed None (Some CHANNEL_A_GAIN_64)))
                    (basePulses
                       (channelGain (constructed None (Some CHANNEL_A_GAIN_64)))))
    by (intros j Hj; simpl microtime; lia).
  destruct (begin_configures_gain zeroDevice 3
              (constructed None (Some CHANNEL_A_GAIN_64)) Hfuel Hfast)
    as [Hrun _].
  assert (Hg : ChannelGain_eqb
                 (channelGain (constructed None (Some CHANNEL_A_GAIN_64)))
                 CHANNEL_A_GAIN_128 = false) by reflexivity.
  rewrite Hg in Hrun. exact Hrun.
Defined.

(** ** Calibrated readings *)

Lemma sumZ_constant R l : Forall (eq R) l -> sumZ l = R * Z.of_nat (length l).
Proof.
  induction 1 as [| x l Hx _ IH]; unfold sumZ in *; cbn [fold_right length].
  - lia.
  - subst x. rewrite IH. lia.
Qed.

(** X10.  When the samples acquired for a count between 1 and 2^29 all
    equal [R], [__readRawAverage] returns [R] whatever the count, and
    [readAverage] returns [(R + Offset) / Scale] with the Offset and Scale it
    started with, caching it in [latestReading], provided Scale is not zero
    and neither the sum nor the quotient needs rounding (with Offset and
    Scale they are binary64 numbers). *)
Theorem readAverage_normalises dev fuel numberOfTimes s l s1 R (o sc : Q) :
  1 <= numberOfTimes <= 2 ^ 29 ->
  length l = Z.to_nat numberOfTimes ->
  acquires dev fuel s l s1 ->
  Forall (eq R) l ->
  offset s = Fin o ->
  scale s = Fin sc ->
  ~ (sc == 0)%Q ->
  binary64 o -> binary64 sc ->
  binary64 (inject_Z R + o) -> binary64 ((inject_Z R + o) / sc) ->
  let reading := Fin (Qred ((inject_Z R + o) / sc)) in
  readRawAverage dev fuel numberOfTimes s = Some (Fin (Qred (inject_Z R)), s1) /\
  readAverage dev fuel numberOfTimes s =
    Some (reading, set_latestReading reading s1).
Proof.
  intros Hn Hlen Hacq Hconst Ho Hsc Hsc0 _ _ _ _ reading.
  pose proof (readRawAverage_mean dev fuel numberOfTimes s l s1
                ltac:(lia) Hlen Hacq) as Hrun.
  assert (Hmean : Qred (inject_Z (sumZ l) / inject_Z numberOfTimes)
                  = Qred (inject_Z R)).
  { apply Qred_complete.
    rewrite (sumZ_constant R l Hconst), Hlen, Z2Nat.id by lia.
    rewrite inject_Z_mult. field.
    intros E. unfold Qeq in E. simpl in E. lia. }
  rewrite Hmean in Hrun.
  pose proof (readRawAverage_sameFields dev fuel numberOfTimes _ _ _ Hrun)
    as (Hoff & Hscale & _).
  split; [exact Hrun |].
  unfold readAverage. step Hrun. cbn [latestReading set_latestReading].
  assert (Hnorm : applyNormalisation (Fin (Qred (inject_Z R))) s1 = reading).
  { unfold applyNormalisation. rewrite Hoff, Hscale, Ho, Hsc.
    unfold Num.add. rewrite div_finite by exact Hsc0.
    unfold reading. f_equal. apply Qred_complete.
    rewrite !Qred_correct. reflexivity. }
  rewrite Hnorm. reflexivity.
Qed.

Lemma readAverage_normalises_witness :
  exists s',
    readAverage (sampleDevice (fun _ => 1000)) 2 3
      (set_offset (Fin (-950)) (set_scale (Fin 10) (constructed None None)))
    = Some (Fin 5, s').
Proof.
  assert (Hacq : exists s1,
            acquires (sampleDevice (fun _ => 1000)) 2
              (set_offset (Fin (-950)) (set_scale (Fin 10) (constructed None None)))
              [1000; 1000; 1000] s1).
  { eexists. repeat (eapply acquires_cons; [vm_compute; reflexivity |]).
    apply acquires_nil. }
  destruct Hacq as [s1 Hacq].
  assert (Bo : binary64 (-950))
    by (apply binary64_integer with (z := -950);
        [reflexivity | vm_compute; reflexivity]).
  assert (Bsc : binary64 10)
    by (apply binary64_integer with (z := 10);
        [reflexivity | vm_compute; reflexivity]).
  assert (Bsum : binary64 (inject_Z 1000 + -950))
    by (apply binary64_integer with (z := 50);
        [reflexivity | vm_compute; reflexivity]).
  assert (Bquot : binary64 ((inject_Z 1000 + -950) / 10))
    by (apply binary64_integer with (z := 5);
        [reflexivity | vm_compute; reflexivity]).
  assert (Hsc0 : ~ (10 == 0)%Q) by discriminate.
  assert (Hconst : Forall (eq 1000) [1000; 1000; 1000])
    by (repeat constructor).
  destruct (readAverage_normalises (sampleDevice (fun _ => 1000)) 2 3 _
              [1000; 1000; 1000] s1 1000 (-950) 10
              ltac:(lia) eq_refl Hacq Hconst eq_refl eq_refl Hsc0
              Bo Bsc Bsum Bquot)
    as [_ Hrun].
  eexists. exact Hrun.
Defined.

(** ** What the constructor leaves behind *)

Lemma div_truthy_finite x sc :
  Num.truthy sc = true -> exists r, Num.div (Fin x) sc = Fin r.
Proof.
  destruct sc as [y | | |]; cbn [Num.truthy Num.div]; intros H;
    try discriminate; try (eexists; reflexivity).
  apply negb_true_iff in H. rewrite H. eexists. reflexivity.
Qed.

Lemma half_not_reached r :
  Num.ge (Num.abs (Fin r)) (Fin (1 # 2)) = false -> (Qabs r < 1 # 2)%Q.
Proof.
  cbn [Num.abs Num.ge]. intros H.
  apply Qnot_le_lt. intros Hle. apply Qle_bool_iff in Hle. congruence.
Qed.

(** Through the Taring loop Offset stays a rational and Scale stays what it
    was, so every reading is a rational. *)
Lemma taring_finite dev fuel : forall s u s',
  (exists o, offset s = Fin o) ->
  Num.truthy (scale s) = true ->
  taring dev fuel s = Some (u, s') ->
  (exists o', offset s' = Fin o') /\
  scale s' = scale s /\
  channelGain s' = channelGain s /\
  exists r, latestReading s' = Fin r /\ (Qabs r < 1 # 2)%Q.
Proof.
  induction fuel as [| fuel IH]; intros s u s' [o Ho] Hsc Hrun; [discriminate |].
  cbn [taring] in Hrun. apply bind_inv in Hrun.
  destruct Hrun as (reading & s1 & Hread & Hrest).
  unfold read, readAverage in Hread. apply bind_inv in Hread.
  destruct Hread as (average & s0 & Havg & Hset).
  pose proof (readRawAverage_sameFields dev fuel 1 _ _ _ Havg)
    as (Hoff0 & Hsc0 & _ & Hg0).
  assert (Hfin : exists a, average = Fin a).
  { destruct (readRawAverage_acquires dev fuel 1 s average s0 ltac:(lia) Havg)
      as (l & _ & _ & ->). eexists. reflexivity. }
  destruct Hfin as [a ->].
  injection Hset as <- <-.
  cbn [latestReading set_latestReading] in Hrest.
  unfold applyNormalisation in Hrest. rewrite Hoff0, Hsc0, Ho in Hrest.
  cbn [Num.add] in Hrest.
  destruct (div_truthy_finite (Qred (a + o)) (scale s) Hsc) as [r Hr].
  rewrite Hr in Hrest.
  destruct (Num.ge (Num.abs (Fin r)) (Fin (1 # 2))) eqn:E.
  - apply bind_inv in Hrest. destruct Hrest as (b & s2 & Htare & Hloop).
    unfold tare in Htare. apply bind_inv in Htare.
    destruct Htare as (average10 & s3 & Havg10 & Hset10).
    pose proof (readRawAverage_sameFields dev fuel 10 _ _ _ Havg10)
      as (_ & Hsc3 & _ & Hg3).
    assert (Hfin10 : exists a10, average10 = Fin a10).
    { destruct (readRawAverage_acquires dev fuel 10 _ average10 s3
                  ltac:(lia) Havg10) as (l10 & _ & _ & ->).
      eexists. reflexivity. }
    destruct Hfin10 as [a10 ->].
    injection Hset10 as _ <-.
    cbn [scale channelGain set_latestReading] in Hsc3, Hg3.
    apply IH in Hloop;
      [ | eexists; reflexivity
        | cbn [scale set_offset]; rewrite Hsc3, Hsc0; exact Hsc ].
    destruct Hloop as (Ho' & Hsc' & Hg' & Hr').
    cbn [scale channelGain set_offset] in Hsc', Hg'.
    split; [exact Ho' |].
    split; [congruence |]. split; [congruence | exact Hr'].
  - injection Hrest as _ <-.
    cbn [offset scale channelGain latestReading set_latestReading].
    split; [exists o; congruence |].
    split; [exact Hsc0 |]. split; [exact Hg0 |].
    exists r. split; [reflexivity | apply half_not_reached; exact E].
Qed.

(** X11.  A driver object that the constructor returns has the Scale it was
    given, or 35 when that was left out, zero or NaN; so its Scale is never
    zero or NaN.  Its gain is the one given, or channel A at 128.  Its Offset
    is a rational, and [latestReading] is no longer the initial -1337 but a
    rational reading of absolute value below 0.5. *)
Theorem constructor_postcondition dev fuel scale0 channelGain0 s :
  constructor dev fuel scale0 channelGain0 = Some s ->
  scale s = match scale0 with
            | Some v => if Num.truthy v then v else Fin 35
            | None => Fin 35
            end /\
  Num.truthy (scale s) = true /\
  channelGain s = match channelGain0 with
                  | Some g => g
                  | None => CHANNEL_A_GAIN_128
                  end /\
  (exists o, offset s = Fin o) /\
  exists r, latestReading s = Fin r /\ (Qabs r < 1 # 2)%Q.
Proof.
  unfold constructor. intros Hrun.
  destruct (begin dev fuel (constructed scale0 channelGain0))
    as [[b s'] |] eqn:Hbegin; [| discriminate].
  injection Hrun as ->.
  assert (Htruthy : Num.truthy (scale (constructed scale0 channelGain0)) = true).
  { cbn [scale constructed]. destruct scale0 as [v |]; [| reflexivity].
    destruct (Num.truthy v) eqn:E; [exact E | reflexivity]. }
  unfold begin in Hbegin.
  apply bind_inv in Hbegin. destruct Hbegin as (g & s1 & Hg & Hbegin).
  injection Hg as <- <-.
  apply bind_inv in Hbegin. destruct Hbegin as (u & s2 & Hconf & Hbegin).
  assert (Hsame : sameFields (constructed scale0 channelGain0) s2).
  { destruct (negb _) in Hconf.
    - apply bind_inv in Hconf. destruct Hconf as (b' & s3 & Hset & Hret).
      injection Hret as _ <-.
      eapply Preserves_setChannelGain; [ | | | | | exact Hset];
        solve [ apply sameFields_refl | apply sameFields_trans
              | intros; unfold sameFields; simpl; auto ].
    - injection Hconf as _ <-. apply sameFields_refl. }
  destruct Hsame as (Hoff & Hsc & _ & Hgain).
  apply bind_inv in Hbegin. destruct Hbegin as (u' & s3 & Hloop & Hret).
  injection Hret as _ <-.
  destruct (taring_finite dev fuel s2 u' s3
              ltac:(exists 0%Q; rewrite Hoff; reflexivity)
              ltac:(rewrite Hsc; exact Htruthy) Hloop)
    as (Ho' & Hsc' & Hg' & Hr').
  split; [rewrite Hsc', Hsc; reflexivity |].
  split; [rewrite Hsc', Hsc; exact Htruthy |].
  split; [rewrite Hg', Hgain; reflexivity |].
  split; [exact Ho' | exact Hr'].
Qed.

Lemma constructor_postcondition_witness :
  exists s,
    constructor (sampleDevice (fun _ => 1000)) 4 (Some (Fin 0))
      (Some CHANNEL_B_GAIN_32) = Some s /\
    scale s = Fin 35 /\ channelGain s = CHANNEL_B_GAIN_32.
Proof.
  destruct (constructor (sampleDevice (fun _ => 1000)) 4 (Some (Fin 0))
              (Some CHANNEL_B_GAIN_32)) as [s |] eqn:Hrun;
    [| vm_compute in Hrun; discriminate].
  destruct (constructor_postcondition _ _ _ _ _ Hrun)
    as (Hsc & _ & Hg & _).
  exists s. split; [reflexivity |]. split; [exact Hsc | exact Hg].
Defined.

(** ** Start-up on a steady load *)

Lemma readAverage_run dev fuel n s average s1 :
  readRawAverage dev fuel n s = Some (average, s1) ->
  readAverage dev fuel n s =
  Some (applyNormalisation average s1,
        set_latestReading (applyNormalisation average s1) s1).
Proof. intros Hrun. unfold readAverage. step Hrun. reflexivity. Qed.

Lemma tare_run dev fuel s average s1 :
  readRawAverage dev fuel 10 s = Some (average, s1) ->
  tare dev fuel s =
  Some (true, set_offset (Num.mul (Fin (-1)) average) s1).
Proof. intros Hrun. unfold tare. step Hrun. reflexivity. Qed.

Section SteadyDevice.

Variable P : Z.
Hypothesis P_range : 0 <= P < 2 ^ 24.
Hypothesis P_valid : isSentinel P = false.

Lemma steady_sumSamples fuel n : forall sum s q,
  (2 <= fuel)%nat ->
  reads s = (25 * q)%nat ->
  exists s',
    sumSamples (sampleDevice (fun _ => P)) fuel n sum s =
      Some (sum + Z.of_nat n * signedData P, s') /\
    reads s' = (25 * (q + n))%nat /\ sameFields s s'.
Proof.
  induction n as [| n IH]; intros sum s q Hfuel Hq.
  - exists s. split; [| split].
    + cbn [sumSamples]. unfold ret. f_equal. f_equal. lia.
    + rewrite Nat.add_0_r. exact Hq.
    + apply sameFields_refl.
  - pose proof (sampleDevice_readUntilSample (fun _ => P) (fun _ => P_range)
                  fuel s q Hq P_valid) as Hread.
    destruct (Nat.ltb_spec fuel 2) as [Hlt | _]; [lia |].
    destruct (IH (sum + signedData P)
                (advance 25 (2 * (24 + basePulses (channelGain s)))
                   (readEvents 0 (basePulses (channelGain s)) P) s)
                (q + 1)%nat Hfuel ltac:(cbn [reads advance]; lia))
      as (s2 & Hrest & Hreads & Hsame).
    exists s2. cbn [sumSamples]. step Hread. rewrite Hrest.
    split; [| split].
    + f_equal. f_equal. lia.
    + rewrite Hreads. lia.
    + eapply sameFields_trans; [apply sameFields_advance | exact Hsame].
Qed.

Lemma steady_readRawAverage fuel n s q :
  (2 <= fuel)%nat ->
  1 <= n ->
  reads s = (25 * q)%nat ->
  exists s',
    readRawAverage (sampleDevice (fun _ => P)) fuel n s =
      Some (Fin (Qred (inject_Z (signedData P))), s') /\
    reads s' = (25 * (q + Z.to_nat n))%nat /\ sameFields s s'.
Proof.
  intros Hfuel Hn Hq.
  destruct (steady_sumSamples fuel (Z.to_nat n) 0 s q Hfuel Hq)
    as (s' & Hsum & Hreads & Hsame).
  exists s'. split; [| split; assumption].
  unfold readRawAverage.
  destruct (Z.ltb_spec n 0) as [Hneg | _]; [lia |].
  step Hsum. unfold ret. rewrite div_of_Z by lia.
  f_equal. f_equal. f_equal. apply Qred_complete.
  rewrite Z.add_0_l, Z2Nat.id, inject_Z_mult by lia. field.
  intros E. unfold Qeq in E. simpl in E. lia.
Qed.

Lemma div_zero_truthy sc :
  Num.truthy sc = true -> Num.div (Fin 0) sc = Fin 0.
Proof.
  destruct sc as [y | | |]; cbn [Num.truthy Num.div]; intros H;
    try discriminate; try reflexivity.
  apply negb_true_iff in H. rewrite H. reflexivity.
Qed.

(** On a steady load the Taring loop ends after the first reading, or after
    one tare and a second reading, which is 0. *)
Lemma steady_taring fuel s q :
  (4 <= fuel)%nat ->
  reads s = (25 * q)%nat ->
  offset s = Fin 0 ->
  Num.truthy (scale s) = true ->
  exists s',
    taring (sampleDevice (fun _ => P)) fuel s = Some (tt, s') /\
    scale s' = scale s /\
    (reads s' = (25 * (q + 1))%nat /\ offset s' = Fin 0 \/
     reads s' = (25 * (q + 12))%nat /\ latestReading s' = Fin 0 /\
     offset s' = Fin (Qred (-1 * Qred (inject_Z (signedData P))))).
Proof.
  intros Hfuel Hq Ho Hsc.
  destruct fuel as [| f1]; [lia |].
  destruct (steady_readRawAverage f1 1 s q ltac:(lia) ltac:(lia) Hq)
    as (s1 & Havg1 & Hreads1 & Ho1 & Hsc1 & _ & _).
  cbn [taring]. unfold read. step (readAverage_run _ _ _ _ _ _ Havg1).
  destruct (Num.ge _ _).
  - destruct (steady_readRawAverage f1 10
                (set_latestReading
                   (applyNormalisation (Fin (Qred (inject_Z (signedData P)))) s1)
                   s1)
                (q + 1)%nat ltac:(lia) ltac:(lia) Hreads1)
      as (s2 & Havg10 & Hreads2 & _ & Hsc2 & _ & _).
    step (tare_run _ _ _ _ _ Havg10).
    destruct f1 as [| f2]; [lia |].
    destruct (steady_readRawAverage f2 1
                (set_offset
                   (Num.mul (Fin (-1)) (Fin (Qred (inject_Z (signedData P)))))
                   s2)
                (q + 1 + Z.to_nat 10)%nat ltac:(lia) ltac:(lia) Hreads2)
      as (s3 & Havg3 & Hreads3 & Ho3 & Hsc3 & _ & _).
    cbn [taring]. unfold read. step (readAverage_run _ _ _ _ _ _ Havg3).
    assert (Hzero :
      applyNormalisation (Fin (Qred (inject_Z (signedData P)))) s3 = Fin 0).
    { unfold applyNormalisation. rewrite Ho3, Hsc3.
      cbn [offset scale set_offset set_latestReading Num.mul Num.add].
      assert (Hnum : Qred (Qred (inject_Z (signedData P))
                           + Qred (-1 * Qred (inject_Z (signedData P)))) = 0%Q).
      { change 0%Q with (Qred 0). apply Qred_complete.
        rewrite !Qred_correct. ring. }
      rewrite Hnum. apply div_zero_truthy. rewrite Hsc2.
      cbn [scale set_latestReading]. rewrite Hsc1. exact Hsc. }
    rewrite Hzero.
    change (Num.ge (Num.abs (Fin 0)) (Fin (1 # 2))) with false. cbv iota.
    eexists. split; [reflexivity |].
    cbn [scale offset reads latestReading set_latestReading].
    split; [| right; split; [| split]].
    + rewrite Hsc3. cbn [scale set_offset]. rewrite Hsc2.
      cbn [scale set_latestReading]. exact Hsc1.
    + rewrite Hreads3. change (Z.to_nat 1) with 1%nat.
      change (Z.to_nat 10) with 10%nat. lia.
    + reflexivity.
    + rewrite Ho3. reflexivity.
  - eexists. split; [reflexivity |].
    cbn [scale offset reads set_latestReading].
    split; [exact Hsc1 | left]. split.
    + rewrite Hreads1. change (Z.to_nat 1) with 1%nat. reflexivity.
    + rewrite Ho1. exact Ho.
Qed.

End SteadyDevice.

(** X12.  On a device that is ready whenever polled, fast on every pulse and
    converting the same valid pattern each time, the constructor always
    returns, for any Scale and gain given: either the first reading is
    already below 0.5 and Offset stays 0 (one raw read), or one [tare] sets
    Offset to minus the sample and the second reading is 0 (twelve raw
    reads). *)
Theorem constructor_steady_device P fuel scale0 channelGain0 :
  0 <= P < 2 ^ 24 ->
  isSentinel P = false ->
  (4 <= fuel)%nat ->
  exists s',
    constructor (sampleDevice (fun _ => P)) fuel scale0 channelGain0 = Some s' /\
    (reads s' = 25%nat /\ offset s' = Fin 0 \/
     reads s' = 300%nat /\ latestReading s' = Fin 0 /\
     offset s' = Fin (Qred (-1 * Qred (inject_Z (signedData P))))).
Proof.
  intros HP Hvalid Hfuel.
  assert (Htruthy : Num.truthy (scale (constructed scale0 channelGain0)) = true).
  { cbn [scale constructed]. destruct scale0 as [v |]; [| reflexivity].
    destruct (Num.truthy v) eqn:E; [exact E | reflexivity]. }
  unfold constructor.
  rewrite (begin_plain (sampleDevice (fun _ => P)) fuel
             (constructed scale0 channelGain0) ltac:(lia)
             (sampleDevice_fast _ _ _)).
  destruct (ChannelGain_eqb _ _).
  - destruct (steady_taring P HP Hvalid fuel (constructed scale0 channelGain0) 0
                Hfuel eq_refl eq_refl Htruthy)
      as (s' & Hrun & _ & Hkind).
    step Hrun. exists s'. split; [reflexivity | exact Hkind].
  - destruct (steady_taring P HP Hvalid fuel
                (advance 0 (2 * basePulses (channelGain (constructed scale0 channelGain0)))
                   (pulseEvents (basePulses (channelGain (constructed scale0 channelGain0))))
                   (constructed scale0 channelGain0)) 0
                Hfuel eq_refl eq_refl Htruthy)
      as (s' & Hrun & _ & Hkind).
    step Hrun. exists s'. split; [reflexivity | exact Hkind].
Qed.

Lemma constructor_steady_device_witness :
  exists s',
    constructor (sampleDevice (fun _ => 1000)) 4 None None = Some s' /\
    reads s' = 300%nat /\ latestReading s' = Fin 0 /\ offset s' = Fin (-1000).
Proof.
  destruct (constructor_steady_device 1000 4 None None)
    as (s' & Hrun & Hkind).
  - lia.
  - reflexivity.
  - repeat constructor.
  - exists s'. split; [exact Hrun |].
    destruct Hkind as [[Hreads Ho] | (Hreads & Hlatest & Ho)].
    + exfalso. vm_compute in Hrun. injection Hrun as <-. discriminate.
    + split; [exact Hreads |]. split; [exact Hlatest | exact Ho].
Defined.

(** ** The clock line is never left high *)

Lemma pulsesClosed_app_aux a :
  (forall b, pulsesClosed a = true -> pulsesClosed b = true ->
             pulsesClosed (a ++ b) = true) /\
  (forall e b, pulsesClosed (e :: a) = true -> pulsesClosed b = true ->
               pulsesClosed ((e :: a) ++ b) = true).
Proof.
  induction a as [| x a [IHa IHcons]].
  - split.
    + intros b _ Hb. exact Hb.
    + intros e b He Hb. destruct e as [[|] | | |]; try exact Hb.
      discriminate.
  - split.
    + intros b. apply IHcons.
    + intros e b He Hb.
      destruct e as [[|] | | |];
        try (cbn [app pulsesClosed] in *; apply (IHcons x b He Hb)).
      destruct x as [[|] | | |]; try discriminate.
      cbn [app pulsesClosed] in *. apply IHa; assumption.
Qed.

Lemma pulsesClosed_app a b :
  pulsesClosed a = true -> pulsesClosed b = true ->
  pulsesClosed (a ++ b) = true.
Proof. apply (proj1 (pulsesClosed_app_aux a)). Qed.

Lemma pulsed_refl s : pulsed s s.
Proof. exists []. rewrite app_nil_r. auto. Qed.

Lemma pulsed_trans s1 s2 s3 : pulsed s1 s2 -> pulsed s2 s3 -> pulsed s1 s3.
Proof.
  intros (es1 & H1 & C1) (es2 & H2 & C2). exists (es1 ++ es2). split.
  - rewrite H2, H1, app_assoc. reflexivity.
  - apply pulsesClosed_app; assumption.
Qed.

Lemma pulsed_same_trace s s' : trace s' = trace s -> pulsed s s'.
Proof. intros H. exists []. rewrite app_nil_r. auto. Qed.

Lemma pulsed_quiet e s : e <> ClockWrite true -> pulsed s (emit e s).
Proof.
  intros He. exists [e]. split; [reflexivity |].
  destruct e as [[|] | | |]; try reflexivity. contradiction.
Qed.

Section ClosedPulses.

Variable dev : Device.

Lemma Pulsed_ret A (a : A) : Preserves pulsed (ret a).
Proof. apply Preserves_ret. apply pulsed_refl. Qed.

Lemma Pulsed_bind A B (m : M A) (k : A -> M B) :
  Preserves pulsed m -> (forall a, Preserves pulsed (k a)) ->
  Preserves pulsed (bind m k).
Proof. apply Preserves_bind. apply pulsed_trans. Qed.

Lemma Pulsed_out_of_fuel A : Preserves pulsed (@out_of_fuel A).
Proof. intros s a s' H. discriminate. Qed.

Lemma Pulsed_if A (b : bool) (m1 m2 : M A) :
  Preserves pulsed m1 -> Preserves pulsed m2 ->
  Preserves pulsed (if b then m1 else m2).
Proof. destruct b; auto. Qed.

Lemma Pulsed_digitalRead : Preserves pulsed (digitalRead dev).
Proof.
  intros s a s' H. injection H as _ <-. apply pulsed_same_trace. reflexivity.
Qed.

Lemma Pulsed_clockLow : Preserves pulsed (clockWrite false).
Proof.
  intros s a s' H. injection H as _ <-. apply pulsed_quiet. discriminate.
Qed.

Lemma Pulsed_msleep ms : Preserves pulsed (msleep ms).
Proof.
  intros s a s' H. injection H as _ <-. apply pulsed_quiet. discriminate.
Qed.

Lemma Pulsed_logSlowPulse e : Preserves pulsed (log (LogSlowPulse e)).
Proof.
  intros s a s' H. injection H as _ <-. apply pulsed_quiet. discriminate.
Qed.

Lemma Pulsed_logInvalidData d : Preserves pulsed (log (LogInvalidData d)).
Proof.
  intros s a s' H. injection H as _ <-. apply pulsed_quiet. discriminate.
Qed.

Lemma Pulsed_getChannelGain : Preserves pulsed getChannelGain.
Proof. intros s a s' H. injection H as _ <-. apply pulsed_refl. Qed.

(** The one place where the clock goes high: the falling edge is the very
    next event. *)
Lemma Pulsed_timedPulse : Preserves pulsed (timedPulse dev).
Proof.
  intros s a s' H. rewrite timedPulse_run in H. injection H as _ <-.
  exists (pulseEvents 1). split; reflexivity.
Qed.

Hint Resolve Pulsed_ret Pulsed_bind Pulsed_out_of_fuel Pulsed_if
  Pulsed_digitalRead Pulsed_clockLow Pulsed_msleep Pulsed_logSlowPulse
  Pulsed_logInvalidData Pulsed_getChannelGain Pulsed_timedPulse : pulse.

Lemma Pulsed_isReady : Preserves pulsed (isReady dev).
Proof. unfold isReady. auto with pulse. Qed.

Hint Resolve Pulsed_isReady : pulse.

Lemma Pulsed_waitReady fuel : Preserves pulsed (waitReady dev fuel).
Proof. induction fuel as [| fuel IH]; cbn [waitReady]; auto 10 with pulse. Qed.

Lemma Pulsed_configPulses n : Preserves pulsed (configPulses dev n).
Proof. induction n as [| n IH]; cbn [configPulses]; auto 10 with pulse. Qed.

Hint Resolve Pulsed_waitReady Pulsed_configPulses : pulse.

Lemma Pulsed_setChannelGain fuel :
  forall g isInit, Preserves pulsed (setChannelGain dev fuel g isInit).
Proof.
  induction fuel as [| fuel IH]; intros g isInit; cbn [setChannelGain];
    auto 10 with pulse.
Qed.

Lemma Pulsed_awaitReady left : Preserves pulsed (awaitReady dev left).
Proof. induction left as [| left IH]; cbn [awaitReady]; auto 10 with pulse. Qed.

Lemma Pulsed_shiftIn n : forall d, Preserves pulsed (shiftIn dev n d).
Proof.
  induction n as [| n IH]; intros d; cbn [shiftIn]; auto 10 with pulse.
Qed.

Hint Resolve Pulsed_setChannelGain Pulsed_awaitReady Pulsed_shiftIn : pulse.

Lemma Pulsed_readRaw fuel : Preserves pulsed (readRaw dev fuel).
Proof.
  unfold readRaw.
  apply Pulsed_bind; [auto with pulse |]. intros _.
  apply Pulsed_bind; [auto with pulse |]. intros ready.
  destruct ready; cbn [negb]; [| auto with pulse].
  apply Pulsed_bind; [auto with pulse |]. intros [data_in |];
    [| auto with pulse].
  apply Pulsed_bind; [auto with pulse |]. intros g.
  apply Pulsed_bind; [auto with pulse |]. intros _.
  apply Pulsed_bind; [auto with pulse |]. intros _.
  apply Pulsed_bind; [| auto with pulse].
  destruct (isSentinel data_in); auto with pulse.
Qed.

Hint Resolve Pulsed_readRaw : pulse.

Lemma Pulsed_readUntilSample fuel : Preserves pulsed (readUntilSample dev fuel).
Proof.
  induction fuel as [| fuel IH]; cbn [readUntilSample]; auto with pulse.
  apply Pulsed_bind; [auto with pulse |].
  intros [| v]; auto with pulse.
Qed.

Hint Resolve Pulsed_readUntilSample : pulse.

Lemma Pulsed_sumSamples fuel n :
  forall sum, Preserves pulsed (sumSamples dev fuel n sum).
Proof.
  induction n as [| n IH]; intros sum; cbn [sumSamples]; auto with pulse.
Qed.

Hint Resolve Pulsed_sumSamples : pulse.

Lemma Pulsed_readRawAverage fuel n : Preserves pulsed (readRawAverage dev fuel n).
Proof. unfold readRawAverage. auto with pulse. Qed.

Hint Resolve Pulsed_readRawAverage : pulse.

Lemma Pulsed_readAverage fuel n : Preserves pulsed (readAverage dev fuel n).
Proof.
  unfold readAverage. apply Pulsed_bind; [auto with pulse |].
  intros average s a s' H. injection H as _ <-.
  apply pulsed_same_trace. reflexivity.
Qed.

Lemma Pulsed_tare fuel : Preserves pulsed (tare dev fuel).
Proof.
  unfold tare. apply Pulsed_bind; [auto with pulse |].
  intros average s a s' H. injection H as _ <-.
  apply pulsed_same_trace. reflexivity.
Qed.

Lemma Pulsed_calibrateScale fuel knownWeight :
  Preserves pulsed (calibrateScale dev fuel knownWeight).
Proof.
  unfold calibrateScale. apply Pulsed_bind; [auto with pulse |].
  intros average s a s' H. injection H as _ <-.
  apply pulsed_same_trace. reflexivity.
Qed.

Hint Resolve Pulsed_readAverage Pulsed_tare : pulse.

Lemma Pulsed_taring fuel : Preserves pulsed (taring dev fuel).
Proof.
  induction fuel as [| fuel IH]; cbn [taring]; auto with pulse.
  apply Pulsed_bind; [apply Pulsed_readAverage |].
  intros reading. apply Pulsed_if; auto with pulse.
Qed.

Lemma Pulsed_begin fuel : Preserves pulsed (begin dev fuel).
Proof.
  unfold begin.
  apply Pulsed_bind; [auto with pulse |]. intros g.
  apply Pulsed_bind; [destruct (negb _); auto with pulse |]. intros _.
  apply Pulsed_bind; [apply Pulsed_taring | auto with pulse].
Qed.

End ClosedPulses.

(** X13.  Whatever the device does and whichever path is taken, the events
    that an operation adds to the trace never leave the clock high: every
    write of 1 to the clock pin is followed at once by the write of 0, with
    no sleep, log line or return in between. *)
Theorem clock_never_left_high dev fuel :
  (forall g isInit, Preserves pulsed (setChannelGain dev fuel g isInit)) /\
  Preserves pulsed (readRaw dev fuel) /\
  (forall n, Preserves pulsed (readAverage dev fuel n)) /\
  Preserves pulsed (read dev fuel) /\
  Preserves pulsed (tare dev fuel) /\
  (forall knownWeight, Preserves pulsed (calibrateScale dev fuel knownWeight)) /\
  Preserves pulsed (begin dev fuel).
Proof.
  refine (conj _ (conj _ (conj _ (conj _ (conj _ (conj _ _)))))).
  - apply Pulsed_setChannelGain.
  - apply Pulsed_readRaw.
  - intros n. apply Pulsed_readAverage.
  - apply Pulsed_readAverage.
  - apply Pulsed_tare.
  - intros knownWeight. apply Pulsed_calibrateScale.
  - apply Pulsed_begin.
Qed.

Lemma clock_never_left_high_witness :
  exists es,
    pulsesClosed es = true /\ pulseCount es = 1%nat /\
    exists r s',
      readRaw slowFirstPulse 1 (constructed None None) = Some (r, s') /\
      trace s' = trace (constructed None None) ++ es.
Proof.
  destruct (readRaw slowFirstPulse 1 (constructed None None))
    as [[r s'] |] eqn:Hrun; [| vm_compute in Hrun; discriminate].
  destruct (proj1 (proj2 (clock_never_left_high slowFirstPulse 1)) _ _ _ Hrun)
    as (es & Htrace & Hclosed).
  exists es. split; [exact Hclosed |]. split.
  - vm_compute in Hrun. injection Hrun as _ <-.
    cbn [trace constructed app] in Htrace. rewrite <- Htrace. reflexivity.
  - exists r, s'. split; [reflexivity | exact Htrace].
Defined.

(** ** A slow gain pulse inside a raw read *)

Lemma ret_bind {A B} (a : A) (k : A -> M B) s : bind (ret a) k s = k a s.
Proof. reflexivity. Qed.

(** X14.  A gain pulse measured at 60 microseconds or more, after the 24 data
    bits of [P] have been shifted in, does not fail the raw read:
    [__setChannelGain] logs it, waits for the device and sends the pulses of
    the gain plus 24, and the read then returns what [P] decodes to, as if
    nothing had happened. *)
Theorem readRaw_survives_slow_gain_pulse dev fuel s k P i k2 :
  0 <= P < 2 ^ 24 ->
  (k <= maxAttempts)%nat ->
  readyAfter dev (reads s) k ->
  presents dev (reads s + S k) P ->
  fastPulses dev (ticks s) (24 + i) ->
  (i < basePulses (channelGain s))%nat ->
  60 <= microtime dev (S (ticks s + 2 * (24 + i)))
        - microtime dev (ticks s + 2 * (24 + i)) ->
  readyAfter dev (reads s + S k + 24) k2 ->
  fastPulses dev (ticks s + 2 * (24 + S i)) (basePulses (channelGain s) + 24) ->
  (S (S k2) < fuel)%nat ->
  exists s',
    readRaw dev fuel s = Some (decode P, s') /\
    reads s' = (reads s + S k + 24 + S k2)%nat /\
    trace s' =
      trace s ++
      ClockWrite false :: repeat (Sleep 1) k ++ pulseEvents 24 ++
      pulseEvents (S i) ++
      [LogSlowPulse (microtime dev (S (ticks s + 2 * (24 + i)))
                     - microtime dev (ticks s + 2 * (24 + i)))] ++
      repeat (Sleep 1) k2 ++ pulseEvents (basePulses (channelGain s) + 24) ++
      Sleep 1 :: (if isSentinel P then [LogInvalidData P] else []).
Proof.
  intros HP Hk Hready Hbits Hfast Hi Hslow Hready2 Hrest Hfuel.
  apply fastPulses_split in Hfast. destruct Hfast as [Hdata Hconf].
  rewrite (readRaw_shifted dev fuel s k P HP Hk Hready Hbits Hdata).
  set (st := advance 24 (2 * 24) (pulseEvents 24)
               (advance (S k) 0 (repeat (Sleep 1) k)
                  (advance 0 0 [ClockWrite false] s))).
  assert (Hticks : ticks st = (ticks s + 2 * 24)%nat)
    by (unfold st; cbn [ticks advance]; lia).
  assert (Hreads : reads st = (reads s + S k + 24)%nat)
    by (unfold st; cbn [reads advance]; lia).
  assert (Hrun :
    setChannelGain dev fuel (channelGain s) false st =
    Some (true,
          advance (S k2) (2 * (S i + (basePulses (channelGain s) + 24)))
            (pulseEvents (S i) ++
             [LogSlowPulse (microtime dev (S (ticks s + 2 * (24 + i)))
                            - microtime dev (ticks s + 2 * (24 + i)))] ++
             repeat (Sleep 1) k2 ++
             pulseEvents (basePulses (channelGain s) + 24)) st)).
  { destruct fuel as [| fuel]; [lia |].
    rewrite (setChannelGain_resyncs dev fuel (channelGain s) i st Hi).
    - rewrite Hticks.
      replace (ticks s + 2 * 24 + 2 * i)%nat with (ticks s + 2 * (24 + i))%nat
        by lia.
      rewrite setChannelGain_init with (k := k2).
      + f_equal. f_equal. rewrite advance_advance.
        apply advance_ext; [lia | lia |]. rewrite <- !app_assoc. reflexivity.
      + lia.
      + cbn [reads advance]. rewrite Nat.add_0_l, Hreads. exact Hready2.
      + cbn [ticks advance]. rewrite Hticks.
        replace (2 * S i + (ticks s + 2 * 24))%nat
          with (ticks s + 2 * (24 + S i))%nat by lia.
        exact Hrest.
    - rewrite Hticks. exact Hconf.
    - rewrite Hticks.
      replace (ticks s + 2 * 24 + 2 * i)%nat with (ticks s + 2 * (24 + i))%nat
        by lia.
      exact Hslow. }
  step Hrun.
  rewrite (bind_Some _ _ _ _ _ (msleep_run 1 _)).
  destruct (isSentinel P).
  - rewrite (bind_Some _ _ _ _ _ (log_run _ _)).
    eexists. split; [reflexivity |]. split.
    + cbn [reads advance]. rewrite Hreads. lia.
    + unfold st. cbn [trace advance]. rewrite <- !app_assoc. reflexivity.
  - rewrite ret_bind.
    eexists. split; [reflexivity |]. split.
    + cbn [reads advance]. rewrite Hreads. lia.
    + unfold st. cbn [trace advance]. rewrite <- !app_assoc. reflexivity.
Qed.

Lemma readRaw_survives_slow_gain_pulse_witness :
  exists s',
    readRaw slowGainPulse 3 (constructed None None) = Some (RawNumber 1000, s') /\
    reads s' = 26%nat.
Proof.
  destruct (readRaw_survives_slow_gain_pulse slowGainPulse 3
              (constructed None None) 0 1000 0 0)
    as (s' & Hrun & Hreads & _).
  - lia.
  - apply Nat.le_0_l.
  - split; [intros j Hj; inversion Hj | reflexivity].
  - intros j Hj.
    do 24 (destruct j as [| j]; [reflexivity |]).
    exfalso. lia.
  - intros j Hj.
    do 24 (destruct j as [| j]; [reflexivity |]).
    exfalso. lia.
  - repeat constructor.
  - simpl. lia.
  - split; [intros j Hj; inversion Hj | reflexivity].
  - intros j Hj. cbn [ticks constructed microtime slowGainPulse].
    destruct (Nat.ltb_spec (S (0 + 2 * (24 + 1) + 2 * j)) 49) as [Hlt | _];
      [lia |].
    destruct (Nat.ltb_spec (0 + 2 * (24 + 1) + 2 * j) 49) as [Hlt | _];
      [lia |].
    lia.
  - repeat constructor.
  - exists s'. split; [exact Hrun | exact Hreads].
Defined.

(** ** Tare, calibrate, read *)

Lemma normalise_round_trip (x W : Q) :
  ~ (x == 0)%Q -> ~ (W == 0)%Q ->
  Num.div (Fin (Qred x)) (Fin (Qred (Qred x / W))) = Fin (Qred W).
Proof.
  intros Hx HW. rewrite div_finite.
  - f_equal. apply Qred_complete. rewrite !Qred_correct.
    field. split; assumption.
  - rewrite !Qred_correct. intros E. apply Hx.
    apply (Qmult_inj_r _ _ (/ W)).
    + intros Hinv. apply HW.
      rewrite <- (Qinv_involutive W), Hinv. reflexivity.
    + rewrite Qmult_0_l. exact E.
Qed.

(** X15.  The usual sequence: [tare()] with the scale empty (raw average
    [m0]), [calibrateScale(W)] with the reference on it (raw average [R]),
    then a reading of the same load.  When [W] is not zero, [R] differs from
    [m0], and neither the difference [R - m0] nor the quotient
    [(R - m0) / W] needs rounding (with [m0], [R] and [W] they are binary64
    numbers), Offset is [-m0], Scale is [(R - m0) / W], and [readAverage]
    returns exactly [W] and caches it. *)
Theorem tare_calibrate_read dev fuel s (m0 R W : Q) n s1 s2 s3 :
  ~ (W == 0)%Q ->
  ~ (R == m0)%Q ->
  binary64 m0 -> binary64 R -> binary64 W ->
  binary64 (R - m0) -> binary64 ((R - m0) / W) ->
  readRawAverage dev fuel 10 s = Some (Fin m0, s1) ->
  let tared := set_offset (Fin (Qred (-1 * m0))) s1 in
  readRawAverage dev fuel 5 tared = Some (Fin R, s2) ->
  let newScale := Fin (Qred (Qred (R + Qred (-1 * m0)) / W)) in
  let calibrated := set_scale newScale s2 in
  readRawAverage dev fuel n calibrated = Some (Fin R, s3) ->
  (tare dev fuel ;; calibrateScale dev fuel (Fin W) ;; readAverage dev fuel n) s
  = Some (Fin (Qred W), set_latestReading (Fin (Qred W)) s3) /\
  offset s3 = Fin (Qred (- m0)) /\
  scale s3 = Fin (Qred ((R - m0) / W)).
Proof.
  intros HW HR _ _ _ _ _ Htare tared Hcal newScale calibrated Hread.
  pose proof (readRawAverage_sameFields dev fuel 5 _ _ _ Hcal)
    as (Hoff2 & _).
  pose proof (readRawAverage_sameFields dev fuel n _ _ _ Hread)
    as (Hoff3 & Hsc3 & _).
  cbn [offset scale tared calibrated set_offset set_scale] in Hoff2, Hoff3, Hsc3.
  assert (Hnz : ~ (R + Qred (-1 * m0) == 0)%Q).
  { rewrite Qred_correct. intros E. apply HR.
    rewrite <- (Qplus_0_r m0), <- E. ring. }
  split; [| split].
  - step (tare_run dev fuel s (Fin m0) s1 Htare).
    change (set_offset (Num.mul (Fin (-1)) (Fin m0)) s1) with tared.
    assert (Hcalrun : calibrateScale dev fuel (Fin W) tared
                      = Some (newScale, calibrated)).
    { unfold calibrateScale. step Hcal. cbn [scale set_scale].
      rewrite Hoff2. unfold Num.add. rewrite div_finite by exact HW.
      reflexivity. }
    step Hcalrun.
    rewrite (readAverage_run dev fuel n calibrated (Fin R) s3 Hread).
    assert (Hnorm : applyNormalisation (Fin R) s3 = Fin (Qred W)).
    { unfold applyNormalisation. rewrite Hoff3, Hoff2, Hsc3.
      unfold Num.add, newScale. apply normalise_round_trip; assumption. }
    rewrite Hnorm. reflexivity.
  - rewrite Hoff3, Hoff2. f_equal; try (apply Qred_complete; ring).
  - rewrite Hsc3. unfold newScale. f_equal. apply Qred_complete.
    rewrite !Qred_correct. reflexivity.
Qed.

Lemma tare_calibrate_read_witness :
  let dev := sampleDevice (fun q => if (q <? 10)%nat then 300 else 1000) in
  exists s',
    (tare dev 2 ;; calibrateScale dev 2 (Fin 20) ;; readAverage dev 2 4)
      (constructed None None) = Some (Fin 20, s') /\
    offset s' = Fin (-300) /\ scale s' = Fin 35.
Proof.
  intros dev.
  destruct (readRawAverage dev 2 10 (constructed None None))
    as [[a1 s1] |] eqn:H1; [| vm_compute in H1; discriminate].
  assert (Ha1 : a1 = Fin 300)
    by (vm_compute in H1; injection H1 as <- _; reflexivity).
  subst a1.
  destruct (readRawAverage dev 2 5 (set_offset (Fin (Qred (-1 * 300))) s1))
    as [[a2 s2] |] eqn:H2;
    [| vm_compute in H1; injection H1 as <-; vm_compute in H2; discriminate].
  assert (Ha2 : a2 = Fin 1000).
  { vm_compute in H1. injection H1 as <-.
    vm_compute in H2. injection H2 as <- _. reflexivity. }
  subst a2.
  destruct (readRawAverage dev 2 4
              (set_scale (Fin (Qred (Qred (1000 + Qred (-1 * 300)) / 20))) s2))
    as [[a3 s3] |] eqn:H3;
    [| vm_compute in H1; injection H1 as <-;
       vm_compute in H2; injection H2 as <-;
       vm_compute in H3; discriminate].
  assert (Ha3 : a3 = Fin 1000).
  { vm_compute in H1. injection H1 as <-.
    vm_compute in H2. injection H2 as <-.
    vm_compute in H3. injection H3 as <- _. reflexivity. }
  subst a3.
  assert (Bm0 : binary64 300)
    by (apply binary64_integer with (z := 300);
        [reflexivity | vm_compute; reflexivity]).
  assert (BR : binary64 1000)
    by (apply binary64_integer with (z := 1000);
        [reflexivity | vm_compute; reflexivity]).
  assert (BW : binary64 20)
    by (apply binary64_integer with (z := 20);
        [reflexivity | vm_compute; reflexivity]).
  assert (Bdiff : binary64 (1000 - 300))
    by (apply binary64_integer with (z := 700);
        [reflexivity | vm_compute; reflexivity]).
  assert (Bquot : binary64 ((1000 - 300) / 20))
    by (apply binary64_integer with (z := 35);
        [reflexivity | vm_compute; reflexivity]).
  destruct (tare_calibrate_read dev 2 (constructed None None) 300 1000 20 4
              s1 s2 s3 ltac:(discriminate) ltac:(discriminate)
              Bm0 BR BW Bdiff Bquot H1 H2 H3)
    as (Hrun & Hoff & Hsc).
  eexists. split; [exact Hrun |]. split; [exact Hoff | exact Hsc].
Defined.
